(** * QuadraticBezierLine: a shallow embedding of [quadratic_bezier_line.js]

    The script draws a quadratic Bezier curve between two map coordinates
    as a polyline.  Every JavaScript Number is an IEEE 754 binary64
    value; the arithmetic below is the binary64 instance of the
    Standard Library's executable specification [SpecFloat], so that
    rounding, signed zeros, infinities and NaN behave as they do in the
    script.  The loop counter and the step count hold integers; they
    are kept in [Z], which is what the Numbers of the script hold as
    long as they stay below 2^53 in magnitude, and are converted where
    the script mixes them into floating-point arithmetic.

    Methods read and update the object they are called on: they take
    the object and return it as the call leaves it. *)

From Stdlib Require Import ZArith Lia Bool List.
From Stdlib Require Import SpecFloat.
From stdpp Require Import base option list strings gmap fin_maps.

Local Open Scope Z_scope.

(** ** JavaScript numbers *)

Module Num.

Definition prec : Z := 53.
Definition emax : Z := 1024.

Abbreviation float := spec_float.

Definition add : float -> float -> float := SFadd prec emax.
Definition sub : float -> float -> float := SFsub prec emax.
Definition mul : float -> float -> float := SFmul prec emax.
Definition div : float -> float -> float := SFdiv prec emax.

(** The Number that an integer literal or integer variable denotes. *)
Definition of_Z (z : Z) : float := binary_normalize prec emax z 0 false.

Definition nan : float := S754_nan.
Definition zero : float := S754_zero false.
Definition one : float := of_Z 1.
Definition two : float := of_Z 2.

(** A decimal literal denotes the binary64 value nearest to it, which is
    what a correctly rounded division of its numerator by its
    denominator yields. *)
Definition lit_0_4 : float := Eval vm_compute in div (of_Z 4) (of_Z 10).
Definition lit_0_6 : float := Eval vm_compute in div (of_Z 6) (of_Z 10).
Definition lit_0_5 : float := Eval vm_compute in div (of_Z 1) (of_Z 2).

(** [x] is a binary64 value in canonical form. *)
Definition valid (x : float) : bool := valid_binary prec emax x.

(** Zero or a finite non-zero number: neither an infinity nor NaN. *)
Definition is_finite (x : float) : bool :=
  match x with
  | S754_zero _ | S754_finite _ _ _ => true
  | _ => false
  end.

Definition is_zero (x : float) : bool :=
  match x with
  | S754_zero _ => true
  | _ => false
  end.

Definition is_nan (x : float) : bool :=
  match x with
  | S754_nan => true
  | _ => false
  end.

(** JavaScript [===] on two Numbers: NaN differs from everything, the
    two zeros are equal. *)
Definition eqb : float -> float -> bool := SFeqb.

(** Truthiness of a Number: everything but the zeros and NaN. *)
Definition truthy (x : float) : bool := negb (is_zero x || is_nan x).

End Num.

Declare Scope js_scope.
Delimit Scope js_scope with js.
Infix "+" := Num.add : js_scope.
Infix "-" := Num.sub : js_scope.
Infix "*" := Num.mul : js_scope.
Infix "/" := Num.div : js_scope.
Notation "x === y" := (Num.eqb x y = true) (at level 70, no associativity) : js_scope.

(** ** Coordinates, options and the curve object *)

(** Modelled from the spec: the host mapping library's [GLatLng] class is
    not part of the script.  The specification's Coordinate is "a pair
    of floating-point values (latitude, longitude)", immutable, with no
    identity beyond value equality and no validation; [lat] and [lng]
    are the accessors [lat()] and [lng()]. *)
Record LatLng := GLatLng { lat : Num.float; lng : Num.float }.

(** Two coordinates agree on both axes under [===]. *)
Definition same_point (p q : LatLng) : Prop :=
  (lat p === lat q)%js /\ (lng p === lng q)%js.

(** The option object read by the methods ([this.opts]). *)
Record Options := mkOptions {
  color : string;
  opacity : Num.float;
  weight : Num.float;
  steps : Z;
  controlPoint : option LatLng;
  curveFactor : Num.float
}.

(** [QuadraticBezierLine.defaults] *)
Definition defaults : Options :=
  {| color := "#ff0000";
     opacity := Num.lit_0_6;
     weight := Num.of_Z 5;
     steps := 20;
     controlPoint := None;
     curveFactor := Num.lit_0_4 |}.

(** Modelled from the spec: the host library's [GPolyline] base class is
    not part of the script.  The specification treats it as "an external
    collaborator consuming the produced point sequence", to which the
    styling fields are passed through; the record keeps the arguments
    of the call [GPolyline.call(this, points, color, weight, opacity)]. *)
Record Overlay := GPolyline {
  vertices : list LatLng;
  stroke_color : string;
  stroke_weight : Num.float;
  stroke_opacity : Num.float
}.

(** The object under construction.  [points] is [null] until the first
    sampling, [middlePoint] is undefined until the loop assigns it, and
    [overlay] is unset until the constructor's last statement. *)
Record Curve := mkCurve {
  from : LatLng;
  to : LatLng;
  opts : Options;
  control : LatLng;
  points : option (list LatLng);
  middlePoint : option LatLng;
  overlay : option Overlay
}.

Definition set_points (ps : list LatLng) (self : Curve) : Curve :=
  {| from := from self; to := to self; opts := opts self;
     control := control self; points := Some ps;
     middlePoint := middlePoint self; overlay := overlay self |}.

Definition set_middlePoint (pt : LatLng) (self : Curve) : Curve :=
  {| from := from self; to := to self; opts := opts self;
     control := control self; points := points self;
     middlePoint := Some pt; overlay := overlay self |}.

Definition set_overlay (o : Overlay) (self : Curve) : Curve :=
  {| from := from self; to := to self; opts := opts self;
     control := control self; points := points self;
     middlePoint := middlePoint self; overlay := Some o |}.

(** [self.points.push(pt)] *)
Definition push_point (pt : LatLng) (self : Curve) : Curve :=
  match points self with
  | Some ps => set_points (ps ++ [pt]) self
  | None => self
  end.

(** ** The methods *)

(** [calculateControlPoint]: reads [this.from], [this.to] and
    [this.opts.curveFactor]. *)
Definition calculateControlPoint (from to : LatLng) (o : Options) : LatLng :=
  let factor := curveFactor o in
  let middle_lat := ((lat from + lat to) / Num.two)%js in
  let middle_lng := ((lng from + lng to) / Num.two)%js in
  GLatLng ((middle_lng - lng to) * factor + middle_lat)%js
          ((lat to - middle_lat) * factor + middle_lng)%js.

(** [bezier] *)
Definition bezier (self : Curve) (t : Num.float) (getValue : LatLng -> Num.float)
  : Num.float :=
  ((((Num.one - t) * (Num.one - t)) * getValue (from self))
   + ((Num.two * t) * (Num.one - t) * getValue (control self))
   + ((t * t) * getValue (to self)))%js.

(** [getPoint] *)
Definition getPoint (self : Curve) (t : Num.float) : LatLng :=
  let lat := bezier self t lat in
  let lng := bezier self t lng in
  GLatLng lat lng.

(** The argument of [getPoint] in the loop: [t * (1 / steps)]. *)
Definition param (steps t : Z) : Num.float :=
  (Num.of_Z t * (Num.one / Num.of_Z steps))%js.

(** The [for] loop of [getPolylinePoints].  The guard [t <= steps] is
    tested on every turn as in the script; [fuel] only makes the
    recursion structural, and running out of it (which would model a
    loop that does not end) yields [None].  [t === steps / 2] compares
    an integer with a quotient by two, which binary floating point
    computes exactly: it holds when twice [t] is [steps].  The counter
    is an integer: [t++] is the integer successor as long as the result
    stays below 2^53, where the Number of the script stops advancing,
    so the loop is that of the script for step counts below 2^53, and
    the statements about sampling are made for such counts. *)
Fixpoint sampling_loop (fuel : nat) (steps t : Z) (self : Curve) : option Curve :=
  match fuel with
  | O => None
  | S fuel' =>
      if t <=? steps then
        let pt := getPoint self (param steps t) in
        let self := if 2 * t =? steps then set_middlePoint pt self else self in
        sampling_loop fuel' steps (t + 1) (push_point pt self)
      else Some self
  end.

(** The step count the loop runs with: [opts.steps] when even, the next
    integer otherwise ([%] is the remainder of truncated division). *)
Definition effectiveSteps (o : Options) : Z :=
  if Z.rem (steps o) 2 =? 0 then steps o else steps o + 1.

(** [getPolylinePoints]: the cached array when there is one ([[]] is
    truthy, only [null] falls through), otherwise the sampled one, which
    is stored on the object.  The result pairs the returned array with
    the object as the call leaves it. *)
Definition getPolylinePoints (self : Curve) : option (list LatLng * Curve) :=
  match points self with
  | Some ps => Some (ps, self)
  | None =>
      let self := set_points [] self in
      let steps := effectiveSteps (opts self) in
      match sampling_loop (S (Z.to_nat (steps + 1))) steps 0 self with
      | Some self' =>
          match points self' with
          | Some ps => Some (ps, self')
          | None => None
          end
      | None => None
      end
  end.

(** ** Option objects and [mergeOptions] *)

(** Property values of a plain option object. *)
Inductive value :=
  | VUndefined
  | VNull
  | VBool (b : bool)
  | VNum (x : Num.float)
  | VStr (s : string)
  | VLatLng (p : LatLng).

(** JavaScript truthiness. *)
Definition truthy (v : value) : bool :=
  match v with
  | VUndefined | VNull => false
  | VBool b => b
  | VNum x => Num.truthy x
  | VStr s => negb (String.eqb s "")
  | VLatLng _ => true
  end.

(** [a || b] *)
Definition js_or (a b : value) : value := if truthy a then a else b.

(** A plain object: its own enumerable properties. *)
Abbreviation object := (gmap string value).

(** [o[attr]] on a plain object, for a name [attr] that
    [Object.prototype] does not define: the own property, and
    [undefined] when there is none.  (Under a name such as [toString]
    the script would read the inherited member; the statements on
    merging are about defaults whose keys are not such names.) *)
Definition get (o : object) (attr : string) : value := default VUndefined (o !! attr).

(** [mergeOptions]: [opts] is [None] when the caller passes [null] or
    [undefined].  The loop visits the own properties of [defaults], and
    [o[attr] = ...] creates the own property [attr] of the result, as
    an assignment does for every name but [__proto__]. *)
Definition mergeOptions (opts : option object) (defaults : object) : object :=
  match opts with
  | None => defaults
  | Some opts =>
      map_fold (fun attr dv o => <[attr := js_or (get opts attr) dv]> o) ∅ defaults
  end.

(** ** The constructor *)

(** The constructor's statements once [this.opts] is known to be [o]:
    resolve the control point, clear the cache, sample, and hand the
    points and the styling fields to [GPolyline]. *)
Definition construct (o : Options) (from to : LatLng) : option Curve :=
  let control := match controlPoint o with
                 | Some c => c
                 | None => calculateControlPoint from to o
                 end in
  let self := {| from := from; to := to; opts := o; control := control;
                 points := None; middlePoint := None; overlay := None |} in
  match getPolylinePoints self with
  | Some (ps, self) =>
      Some (set_overlay (GPolyline ps (color (opts self)) (weight (opts self))
                                   (opacity (opts self))) self)
  | None => None
  end.

(** [new QuadraticBezierLine(from, to, opts)].  The third argument is
    accepted and never read: [this.opts] is assigned
    [QuadraticBezierLine.defaults], the call to the merge helper being
    commented out in the script. *)
Definition QuadraticBezierLine (from to : LatLng) (user_opts : option object)
  : option Curve :=
  construct defaults from to.

(** ** Definitions used in the statements *)

(** The samples at the [k] consecutive loop indices [t], [t + 1], ... *)
Fixpoint samples (self : Curve) (n t : Z) (k : nat) : list LatLng :=
  match k with
  | O => []
  | S k' => getPoint self (param n t) :: samples self n (t + 1) k'
  end.

(** A coordinate whose two axes are finite binary64 values. *)
Definition finite_point (p : LatLng) : bool :=
  Num.valid (lat p) && Num.is_finite (lat p)
  && Num.valid (lng p) && Num.is_finite (lng p).

(** The control point as the specification words it: the arithmetic
    midpoint [m] of the endpoints, moved by the fixed formula. *)
Definition midpoint (from to : LatLng) : LatLng :=
  GLatLng ((lat from + lat to) / Num.two)%js ((lng from + lng to) / Num.two)%js.

Definition resolveControlPoint (from to : LatLng) (curveFactor : Num.float)
  : LatLng :=
  let m := midpoint from to in
  GLatLng ((lng m - lng to) * curveFactor + lat m)%js
          ((lat to - lat m) * curveFactor + lng m)%js.

(** Option objects that differ from the defaults in one field. *)
Definition with_steps (n : Z) (o : Options) : Options :=
  {| color := color o; opacity := opacity o; weight := weight o; steps := n;
     controlPoint := controlPoint o; curveFactor := curveFactor o |}.

Definition with_curveFactor (f : Num.float) (o : Options) : Options :=
  {| color := color o; opacity := opacity o; weight := weight o;
     steps := steps o; controlPoint := controlPoint o; curveFactor := f |}.

Definition with_controlPoint (c : LatLng) (o : Options) : Options :=
  {| color := color o; opacity := opacity o; weight := weight o;
     steps := steps o; controlPoint := Some c; curveFactor := curveFactor o |}.

(** A curve object as the constructor leaves it just before sampling. *)
Definition unsampled (o : Options) (from control to : LatLng) : Curve :=
  {| from := from; to := to; opts := o; control := control;
     points := None; middlePoint := None; overlay := None |}.

(** The coordinate with integer latitude and longitude. *)
Definition at_ (a b : Z) : LatLng := GLatLng (Num.of_Z a) (Num.of_Z b).

(** The largest finite binary64 value. *)
Definition max_value : Num.float := S754_finite false 9007199254740991 971.

(** The defaults as a plain object, the way [mergeOptions] would be
    handed them ([controlPoint: null]). *)
Definition to_object (o : Options) : object :=
  <["color" := VStr (color o)]>
    (<["opacity" := VNum (opacity o)]>
       (<["weight" := VNum (weight o)]>
          (<["steps" := VNum (Num.of_Z (steps o))]>
             (<["controlPoint" := match controlPoint o with
                                  | Some c => VLatLng c
                                  | None => VNull
                                  end]>
                (<["curveFactor" := VNum (curveFactor o)]> ∅))))).

(** A caller's object with falsy values for recognised options and one
    option the defaults do not know. *)
Definition falsy_opts : object :=
  <["opacity" := VNum Num.zero]>
    (<["curveFactor" := VNum Num.zero]>
       (<["steps" := VNum Num.zero]>
          (<["color" := VStr ""]>
             (<["dashed" := VBool true]> ∅)))).

(** A caller's object asking for a blue, thinner line in two steps. *)
Definition styled_opts : object :=
  <["color" := VStr "#0000ff"]>
    (<["weight" := VNum (Num.of_Z 2)]>
       (<["steps" := VNum (Num.of_Z 2)]> ∅)).

(** A caller's object supplying the control point (5, 0). *)
Definition control_opts : object :=
  <["controlPoint" := VLatLng (at_ 5 0)]> ∅.

(** Structural identity of two Numbers, and the check that a step count
    puts the last parameter at 1 and the middle one at 0.5. *)
Definition identical (x y : Num.float) : bool :=
  match x, y with
  | S754_zero s, S754_zero s' => Bool.eqb s s'
  | S754_infinity s, S754_infinity s' => Bool.eqb s s'
  | S754_nan, S754_nan => true
  | S754_finite s m e, S754_finite s' m' e' =>
      Bool.eqb s s' && Pos.eqb m m' && Z.eqb e e'
  | _, _ => false
  end.

Definition exact_params (n : Z) : bool :=
  identical (param n n) Num.one && identical (param n (n / 2)) Num.lit_0_5.

(** Unary minus on a Number. *)
Definition neg (x : Num.float) : Num.float := SFopp x.

(** A finite Number of magnitude below [2 ^ k]. *)
Definition below (k : Z) (x : Num.float) : bool :=
  match x with
  | S754_zero _ => true
  | S754_finite _ m e => Zpos (digits2_pos m) + e <=? k
  | _ => false
  end.

(** A coordinate with finite binary64 axes of magnitude below [2 ^ k]. *)
Definition point_below (k : Z) (p : LatLng) : bool :=
  finite_point p && below k (lat p) && below k (lng p).

(** A coordinate whose axes are finite and of magnitude below [2 ^ k]. *)
Definition axes_below (k : Z) (p : LatLng) : bool :=
  below k (lat p) && below k (lng p).

(** Both axes of a coordinate are finite. *)
Definition finite_axes (p : LatLng) : Prop :=
  Num.is_finite (lat p) = true /\ Num.is_finite (lng p) = true.

(** The literal 0.25. *)
Definition lit_0_25 : Num.float :=
  Eval vm_compute in Num.div (Num.of_Z 1) (Num.of_Z 4).

(** A Number a quarter of which is computed without rounding: zero, or
    a finite Number whose exponent is at least -1072, which for a
    canonical Number means a magnitude of at least [2 ^ -1020]. *)
Definition quarter_exact (x : Num.float) : bool :=
  match x with
  | S754_zero _ => true
  | S754_finite _ _ e => -1072 <=? e
  | _ => false
  end.

(** The smallest positive Number, [5e-324]. *)
Definition min_value : Num.float := S754_finite false 1 (-1074).

(** The mantissa that rounding to nearest, ties to even, keeps of the
    mantissa [t] when its last bit ([k = 1]) or its last two bits
    (any other [k]) are dropped. *)
Definition keep (k t : Z) : Z :=
  if k =? 1 then
    (if Z.odd t then (if Z.even (t / 2) then t / 2 else t / 2 + 1) else t / 2)
  else
    (if Z.odd (t / 2)
     then (if Z.odd t then t / 4 + 1
           else if Z.even (t / 4) then t / 4 else t / 4 + 1)
     else t / 4).

(** The names that a plain object inherits from [Object.prototype]:
    reading one of them on an object without such an own property
    yields the inherited member, and assigning to [__proto__] creates
    no own property. *)
Definition prototype_names : list string :=
  ["constructor"; "hasOwnProperty"; "isPrototypeOf"; "propertyIsEnumerable";
   "toLocaleString"; "toString"; "valueOf"; "__proto__";
   "__defineGetter__"; "__defineSetter__"; "__lookupGetter__";
   "__lookupSetter__"].

(** An object none of whose own properties bears an inherited name. *)
Definition plain_keys (o : object) : bool :=
  forallb (fun k => match o !! k with Some _ => false | None => true end)
          prototype_names.

(** * Properties *)

(** ** Binary64 arithmetic

    Exactness facts about the operations of [Num], proved on the
    executable specification: multiplying by one, adding a zero,
    subtracting a number from itself, halving a double, and the
    reciprocal of an integer. *)

Module NumFacts.
Import Num.

Lemma digits2_log2 (p : positive) :
  Zpos (digits2_pos p) = Z.log2 (Zpos p) + 1.
Proof.
  induction p as [p IH|p IH|]; simpl digits2_pos.
  - rewrite Pos2Z.inj_succ, IH.
    change (Zpos p~1) with (2 * Zpos p + 1). rewrite Z.log2_succ_double; lia.
  - rewrite Pos2Z.inj_succ, IH.
    change (Zpos p~0) with (2 * Zpos p). rewrite Z.log2_double; lia.
  - reflexivity.
Qed.

Lemma digits2_shift (p : positive) (k : Z) :
  0 <= k ->
  Zdigits2 (Zpos p * 2 ^ k) = Zpos (digits2_pos p) + k.
Proof.
  intros Hk.
  assert (H : 0 < Zpos p * 2 ^ k) by (pose proof (Z.pow_pos_nonneg 2 k ltac:(lia) Hk); nia).
  destruct (Zpos p * 2 ^ k) as [|q|q] eqn:E; try lia.
  cbn [Zdigits2]. rewrite !digits2_log2, <- E.
  rewrite Z.log2_mul_pow2; lia.
Qed.

Lemma shr_1_double (z : Z) :
  shr_1 {| shr_m := 2 * z; shr_r := false; shr_s := false |}
  = {| shr_m := z; shr_r := false; shr_s := false |}.
Proof. destruct z; reflexivity. Qed.

Lemma pow2_xO (p : positive) : 2 ^ Zpos p~0 = 2 ^ Zpos p * 2 ^ Zpos p.
Proof.
  rewrite <- Z.pow_add_r by lia. f_equal. lia.
Qed.

Lemma pow2_xI (p : positive) : 2 ^ Zpos p~1 = 2 * (2 ^ Zpos p * 2 ^ Zpos p).
Proof.
  rewrite <- Z.pow_add_r, <- Z.pow_succ_r by lia. f_equal. lia.
Qed.

Lemma iter_shr_exact (p : positive) :
  forall z : Z,
    SpecFloat.iter_pos shr_1 p {| shr_m := z * 2 ^ Zpos p; shr_r := false; shr_s := false |}
    = {| shr_m := z; shr_r := false; shr_s := false |}.
Proof.
  induction p as [p IH|p IH|]; intros z; cbn [SpecFloat.iter_pos].
  - replace (z * 2 ^ Zpos p~1) with (2 * (z * 2 ^ Zpos p * 2 ^ Zpos p))
      by (rewrite pow2_xI; ring).
    now rewrite shr_1_double, !IH.
  - replace (z * 2 ^ Zpos p~0) with (z * 2 ^ Zpos p * 2 ^ Zpos p)
      by (rewrite pow2_xO; ring).
    now rewrite !IH.
  - rewrite Z.pow_1_r, Z.mul_comm. apply shr_1_double.
Qed.

Lemma fexp_eq (x : Z) : fexp prec emax x = Z.max (x - 53) (-1074).
Proof. reflexivity. Qed.

Lemma canonical_inv (m : positive) (e : Z) :
  canonical_mantissa prec emax m e = true ->
  fexp prec emax (Zpos (digits2_pos m) + e) = e.
Proof. unfold canonical_mantissa. apply Z.eqb_eq. Qed.

Lemma bounded_inv (m : positive) (e : Z) :
  bounded prec emax m e = true ->
  canonical_mantissa prec emax m e = true /\ e <= 971.
Proof.
  unfold bounded. intros H. apply andb_true_iff in H. destruct H as [H1 H2].
  apply Z.leb_le in H2. now split.
Qed.

Lemma bounded_intro (m : positive) (e : Z) :
  Z.max (Zpos (digits2_pos m) + e - 53) (-1074) = e -> e <= 971 ->
  bounded prec emax m e = true.
Proof.
  intros Hc He. unfold bounded, canonical_mantissa.
  rewrite fexp_eq, Hc, Z.eqb_refl. now apply Z.leb_le.
Qed.

(** A canonical mantissa padded with [k] trailing zero bits rounds back
    to itself, or overflows when its exponent is out of range. *)
Lemma binary_round_aux_canonical (s : bool) (m : positive) (e k : Z) :
  0 <= k ->
  canonical_mantissa prec emax m e = true ->
  binary_round_aux prec emax s (Zpos m * 2 ^ k) (e - k) loc_Exact
  = if e <=? 971 then S754_finite s m e else S754_infinity s.
Proof.
  intros Hk Hcan. apply canonical_inv in Hcan.
  unfold binary_round_aux, shr_fexp.
  rewrite digits2_shift by exact Hk.
  replace (Zpos (digits2_pos m) + k + (e - k)) with (Zpos (digits2_pos m) + e) by lia.
  rewrite Hcan. replace (e - (e - k)) with k by lia.
  cbn [shr_record_of_loc].
  assert (Hshr : shr {| shr_m := Zpos m * 2 ^ k; shr_r := false; shr_s := false |} (e - k) k
                 = ({| shr_m := Zpos m; shr_r := false; shr_s := false |}, e)).
  { destruct k as [|p|p]; [| |lia].
    - unfold shr. now rewrite Z.pow_0_r, Z.mul_1_r, Z.sub_0_r.
    - unfold shr. rewrite iter_shr_exact. f_equal. lia. }
  rewrite Hshr.
  cbn [Zdigits2 shr_m shr_r shr_s loc_of_shr_record round_nearest_even].
  rewrite Hcan, Z.sub_diag. cbn [shr shr_m].
  reflexivity.
Qed.

Lemma binary_round_aux_exact (s : bool) (m : positive) (e k : Z) :
  0 <= k ->
  bounded prec emax m e = true ->
  binary_round_aux prec emax s (Zpos m * 2 ^ k) (e - k) loc_Exact
  = S754_finite s m e.
Proof.
  intros Hk Hb. destruct (bounded_inv m e Hb) as [Hcan Hle].
  rewrite binary_round_aux_canonical by assumption.
  apply Z.leb_le in Hle. now rewrite Hle.
Qed.

Lemma one_eq : one = S754_finite false 4503599627370496 (-52).
Proof. reflexivity. Qed.

Lemma two_eq : two = S754_finite false 4503599627370496 (-51).
Proof. reflexivity. Qed.

Lemma mul_one_l (x : float) : valid x = true -> (one * x)%js = x.
Proof.
  intros Hx. rewrite one_eq. destruct x as [s|s| |s m e]; try reflexivity.
  unfold mul, SFmul. cbn [xorb].
  replace (Zpos (4503599627370496 * m)) with (Zpos m * 2 ^ 52) by lia.
  replace (-52 + e) with (e - 52) by lia.
  now apply binary_round_aux_exact.
Qed.

Lemma mul_zero_l (z x : float) :
  is_zero z = true -> is_finite x = true -> is_zero (z * x)%js = true.
Proof. destruct z, x; try discriminate; reflexivity. Qed.

Lemma mul_zero_r (x z : float) :
  is_finite x = true -> is_zero z = true -> is_zero (x * z)%js = true.
Proof. destruct z, x; try discriminate; reflexivity. Qed.

Lemma eqb_refl (x : float) : is_finite x = true -> (x === x)%js.
Proof.
  destruct x as [s|s| |s m e]; try discriminate; intros _; [reflexivity|].
  unfold eqb, SFeqb, SFcompare.
  destruct s; rewrite Z.compare_refl, Pos.compare_cont_refl; reflexivity.
Qed.

Lemma add_zero_r (x z : float) :
  is_finite x = true -> is_zero z = true -> ((x + z) === x)%js.
Proof.
  destruct z as [sz| | |]; try discriminate.
  destruct x as [s|s| |s m e]; try discriminate; intros _ _.
  - destruct s, sz; reflexivity.
  - apply (eqb_refl (S754_finite s m e)). reflexivity.
Qed.

Lemma add_zero_l (z x : float) :
  is_zero z = true -> is_finite x = true -> ((z + x) === x)%js.
Proof.
  destruct z as [sz| | |]; try discriminate.
  destruct x as [s|s| |s m e]; try discriminate; intros _ _.
  - destruct s, sz; reflexivity.
  - apply (eqb_refl (S754_finite s m e)). reflexivity.
Qed.

Lemma sub_diag (x : float) : is_finite x = true -> (x - x)%js = zero.
Proof.
  destruct x as [s|s| |s m e]; try discriminate; intros _.
  - destruct s; reflexivity.
  - unfold sub, SFsub. now rewrite Z.sub_diag.
Qed.

(** Doubling a number: the exponent goes up by one, or, for a subnormal,
    the mantissa gains a bit. *)
Lemma add_diag (s : bool) (m : positive) (e : Z) :
  canonical_mantissa prec emax m e = true ->
  (S754_finite s m e + S754_finite s m e)%js
  = if Zpos (digits2_pos m) + e - 53 <? -1074
    then S754_finite s m~0 e
    else if e + 1 <=? 971 then S754_finite s m (e + 1) else S754_infinity s.
Proof.
  intros Hcan. pose proof (canonical_inv m e Hcan) as Hf. rewrite fexp_eq in Hf.
  unfold add, SFadd. rewrite Z.min_id.
  unfold shl_align at 1 2. rewrite Z.sub_diag. cbn [fst].
  assert (Hsum : cond_Zopp s (Zpos m) + cond_Zopp s (Zpos m)
                 = cond_Zopp s (Zpos m~0)) by (destruct s; simpl; lia).
  rewrite Hsum.
  assert (Hnorm : binary_normalize prec emax (cond_Zopp s (Zpos m~0)) e false
                  = binary_round prec emax s m~0 e) by (destruct s; reflexivity).
  rewrite Hnorm. unfold binary_round.
  cbn [digits2_pos]. rewrite Pos2Z.inj_succ, fexp_eq.
  destruct (Zpos (digits2_pos m) + e - 53 <? -1074) eqn:Hsub.
  - apply Z.ltb_lt in Hsub.
    assert (He : Z.max (Z.succ (Zpos (digits2_pos m)) + e - 53) (-1074) = e) by lia.
    rewrite He. unfold shl_align. rewrite Z.sub_diag.
    replace (Zpos m~0) with (Zpos m~0 * 2 ^ 0) by lia.
    replace e with (e - 0) at 1 by lia.
    rewrite binary_round_aux_canonical; [|lia|].
    + replace (e <=? 971) with true by (symmetry; apply Z.leb_le; lia). reflexivity.
    + unfold canonical_mantissa. cbn [digits2_pos].
      rewrite Pos2Z.inj_succ, fexp_eq, He. apply Z.eqb_refl.
  - apply Z.ltb_ge in Hsub.
    assert (He : Z.max (Z.succ (Zpos (digits2_pos m)) + e - 53) (-1074) = e + 1) by lia.
    rewrite He. unfold shl_align.
    replace (e + 1 - e) with 1 by lia.
    replace (Zpos m~0) with (Zpos m * 2 ^ 1) by lia.
    replace e with (e + 1 - 1) at 1 by lia.
    rewrite binary_round_aux_canonical; [reflexivity|lia|].
    unfold canonical_mantissa. rewrite fexp_eq. apply Z.eqb_eq. lia.
Qed.

Lemma div_eucl_mul (q b : Z) : b <> 0 -> Z.div_eucl (q * b) b = (q, 0).
Proof.
  intros Hb. destruct (Z.div_eucl (q * b) b) as [q' r'] eqn:Hd.
  assert (Hq : q' = q * b / b) by (unfold Z.div; now rewrite Hd).
  assert (Hr : r' = (q * b) mod b) by (unfold Z.modulo; now rewrite Hd).
  rewrite Z.div_mul in Hq by exact Hb. rewrite Z.mod_mul in Hr by exact Hb.
  now subst.
Qed.

(** The division core on a divisor of two, when the shifted dividend is
    a multiple of the divisor's mantissa. *)
Lemma div_core_two (M : positive) (E q : Z) :
  let e' := Z.min (fexp prec emax (Zpos (digits2_pos M) + E - 2)) (E + 51) in
  0 <= E + 51 - e' ->
  Zpos M * 2 ^ (E + 51 - e') = q * 2 ^ 52 ->
  SFdiv_core_binary prec emax (Zpos M) E 4503599627370496 (-51)
  = (q, e', loc_Exact).
Proof.
  intros e' Hs Hq. unfold SFdiv_core_binary.
  cbn [Zdigits2]. change (Zpos (digits2_pos 4503599627370496)) with 53.
  replace (Zpos (digits2_pos M) + E - (53 + -51))
    with (Zpos (digits2_pos M) + E - 2) by lia.
  replace (E - -51) with (E + 51) by lia.
  fold e'.
  assert (Hm : match E + 51 - e' with
               | 0 => Zpos M
               | Zpos _ => Z.shiftl (Zpos M) (E + 51 - e')
               | Zneg _ => 0
               end = q * 2 ^ 52).
  { rewrite <- Hq. destruct (E + 51 - e') as [|p|p] eqn:Hsh.
    - now rewrite Z.pow_0_r, Z.mul_1_r.
    - apply Z.shiftl_mul_pow2. lia.
    - lia. }
  rewrite Hm. change (2 ^ 52) with 4503599627370496.
  rewrite div_eucl_mul by lia. reflexivity.
Qed.

Lemma div_two (s : bool) (M : positive) (E : Z) (m : positive) (e k : Z) :
  bounded prec emax m e = true ->
  0 <= k ->
  Z.min (fexp prec emax (Zpos (digits2_pos M) + E - 2)) (E + 51) = e - k ->
  Zpos M * 2 ^ (E + 51 - (e - k)) = Zpos m * 2 ^ k * 2 ^ 52 ->
  0 <= E + 51 - (e - k) ->
  (S754_finite s M E / two)%js = S754_finite s m e.
Proof.
  intros Hb Hk He' Hq Hs. rewrite two_eq. unfold div, SFdiv.
  rewrite (div_core_two M E (Zpos m * 2 ^ k)); rewrite He'; try assumption.
  rewrite xorb_false_r. now apply binary_round_aux_exact.
Qed.

(** Halving the double of a number gives the number back, unless the
    doubling overflowed. *)
Lemma double_half (a : float) :
  valid a = true -> is_finite (a + a)%js = true -> ((a + a) / two)%js = a.
Proof.
  destruct a as [s|s| |s m e].
  - intros _ _. destruct s; reflexivity.
  - intros _. destruct s; discriminate.
  - discriminate.
  - intros Hv. change (bounded prec emax m e = true) in Hv.
    destruct (bounded_inv m e Hv) as [Hcan Hle].
    pose proof (canonical_inv m e Hcan) as Hf. rewrite fexp_eq in Hf.
    rewrite add_diag by exact Hcan.
    destruct (Zpos (digits2_pos m) + e - 53 <? -1074) eqn:Hsub.
    + intros _. apply Z.ltb_lt in Hsub.
      apply (div_two s m~0 e m e 0); try assumption; try lia.
      * cbn [digits2_pos]. rewrite Pos2Z.inj_succ, fexp_eq. lia.
      * replace (e + 51 - (e - 0)) with 51 by lia.
        rewrite Z.pow_0_r. change (2 ^ 51) with 2251799813685248.
        change (2 ^ 52) with 4503599627370496. lia.
    + apply Z.ltb_ge in Hsub.
      destruct (e + 1 <=? 971) eqn:Hov; [intros _|discriminate].
      assert (Hk : e = -1074 \/ -1074 < e) by lia.
      destruct Hk as [Hk|Hk].
      * apply (div_two s m (e + 1) m e 0); try assumption; try lia.
        -- rewrite fexp_eq. lia.
        -- replace (e + 1 + 51 - (e - 0)) with 52 by lia.
           rewrite Z.pow_0_r. lia.
      * apply (div_two s m (e + 1) m e 1); try assumption; try lia.
        -- rewrite fexp_eq. lia.
        -- replace (e + 1 + 51 - (e - 1)) with 53 by lia.
           change (2 ^ 53) with 9007199254740992.
           change (2 ^ 52) with 4503599627370496. lia.
Qed.

(** *** Rounding without overflow *)

Lemma Zdigits2_nonneg (z : Z) : 0 <= Zdigits2 z.
Proof. destruct z; simpl; lia. Qed.

Lemma Zdigits2_log2 (z : Z) : 0 < z -> Zdigits2 z = Z.log2 z + 1.
Proof. destruct z as [|p|p]; try lia. intros _. apply digits2_log2. Qed.

Lemma Zdigits2_le (a b : Z) : 0 <= a <= b -> Zdigits2 a <= Zdigits2 b.
Proof.
  intros [Ha Hab]. destruct (Z.eq_dec a 0) as [->|Hne].
  - apply Zdigits2_nonneg.
  - rewrite !Zdigits2_log2 by lia.
    pose proof (Z.log2_le_mono a b Hab). lia.
Qed.

Lemma Zdigits2_succ (a : Z) : 0 <= a -> Zdigits2 (a + 1) <= Zdigits2 a + 1.
Proof.
  intros Ha. destruct (Z.eq_dec a 0) as [->|Hne]; [simpl; lia|].
  rewrite !Zdigits2_log2 by lia.
  pose proof (Z.log2_succ_le a). unfold Z.succ in *. lia.
Qed.

Lemma shr_m_shr_1 (mrs : shr_record) :
  0 <= shr_m mrs -> shr_m (shr_1 mrs) = shr_m mrs / 2.
Proof.
  destruct mrs as [m r s]. cbn [shr_m]. intros Hm.
  rewrite <- Z.div2_div.
  destruct m as [|[p|p|]|p]; try reflexivity. lia.
Qed.

Lemma shr_m_iter (p : positive) :
  forall mrs : shr_record,
    0 <= shr_m mrs ->
    shr_m (SpecFloat.iter_pos shr_1 p mrs) = shr_m mrs / 2 ^ Zpos p.
Proof.
  assert (Hpow : forall q : positive, 0 < 2 ^ Zpos q)
    by (intros q; apply Z.pow_pos_nonneg; lia).
  induction p as [p IH|p IH|]; intros mrs Hm; cbn [SpecFloat.iter_pos].
  - pose proof (Hpow p) as Hp.
    assert (H1 : 0 <= shr_m (shr_1 mrs))
      by (rewrite shr_m_shr_1 by exact Hm; apply Z.div_pos; lia).
    assert (H2 : 0 <= shr_m (SpecFloat.iter_pos shr_1 p (shr_1 mrs)))
      by (rewrite IH by exact H1; apply Z.div_pos; lia).
    rewrite IH, IH, shr_m_shr_1 by assumption.
    rewrite !Z.div_div by lia. f_equal. rewrite pow2_xI. ring.
  - pose proof (Hpow p) as Hp.
    assert (H2 : 0 <= shr_m (SpecFloat.iter_pos shr_1 p mrs))
      by (rewrite IH by exact Hm; apply Z.div_pos; lia).
    rewrite IH, IH by assumption.
    rewrite !Z.div_div by lia. f_equal. now rewrite pow2_xO.
  - rewrite Z.pow_1_r. now apply shr_m_shr_1.
Qed.

Lemma shr_m_record_of_loc (m : Z) (l : location) :
  shr_m (shr_record_of_loc m l) = m.
Proof. destruct l as [|[]]; reflexivity. Qed.

(** One rounding shift: the mantissa stays non-negative, the exponent
    moves up to the format's, and the magnitude does not grow. *)
Lemma shr_fexp_bounds (q e : Z) (l : location) (mrs : shr_record) (e' : Z) :
  0 <= q ->
  shr_fexp prec emax q e l = (mrs, e') ->
  0 <= shr_m mrs
  /\ e' = Z.max e (fexp prec emax (Zdigits2 q + e))
  /\ Zdigits2 (shr_m mrs) + e' <= Z.max (Zdigits2 q + e) e'.
Proof.
  intros Hq. unfold shr_fexp, shr.
  destruct (fexp prec emax (Zdigits2 q + e) - e) as [|p|p] eqn:Hk;
    intros Heq; injection Heq as <- <-; rewrite ?shr_m_record_of_loc.
  - repeat split; lia.
  - rewrite shr_m_iter by (rewrite shr_m_record_of_loc; exact Hq).
    rewrite shr_m_record_of_loc.
    assert (Hp : 0 < 2 ^ Zpos p) by (apply Z.pow_pos_nonneg; lia).
    assert (Hd : 0 <= q / 2 ^ Zpos p) by (apply Z.div_pos; lia).
    repeat split; try lia.
    destruct (Z.eq_dec (q / 2 ^ Zpos p) 0) as [->|Hne]; [simpl; lia|].
    assert (Hq0 : 0 < q).
    { destruct (Z.eq_dec q 0) as [->|]; [|lia]. now rewrite Z.div_0_l in Hne by lia. }
    rewrite (Zdigits2_log2 q) by exact Hq0.
    rewrite Zdigits2_log2 by lia.
    assert (Hge : 2 ^ Zpos p <= q).
    { destruct (Z.lt_ge_cases q (2 ^ Zpos p)) as [Hlt|Hge]; [|exact Hge].
      rewrite Z.div_small in Hne by lia. lia. }
    apply Z.log2_le_pow2 in Hge; [|exact Hq0].
    rewrite <- Z.shiftr_div_pow2, Z.log2_shiftr by lia. lia.
  - repeat split; lia.
Qed.

Lemma round_nearest_even_bounds (m : Z) (l : location) :
  m <= round_nearest_even m l <= m + 1.
Proof.
  unfold round_nearest_even. destruct l as [|[]]; try lia.
  destruct (Z.even m); lia.
Qed.

(** A non-negative mantissa whose magnitude is below the overflow
    threshold rounds to a zero or to a finite number of the requested
    sign. *)
Lemma binary_round_aux_finite (s : bool) (q e : Z) (l : location) :
  0 <= q -> Zdigits2 q + e <= 1023 -> e <= 971 ->
  let r := binary_round_aux prec emax s q e l in
  r = S754_zero s \/ exists m e', r = S754_finite s m e'.
Proof.
  intros Hq Hmag He. unfold binary_round_aux.
  destruct (shr_fexp prec emax q e l) as [mrs1 e1] eqn:H1.
  destruct (shr_fexp_bounds q e l mrs1 e1 Hq H1) as (Hm1 & He1 & Hd1).
  set (m2 := round_nearest_even (shr_m mrs1) (loc_of_shr_record mrs1)).
  pose proof (round_nearest_even_bounds (shr_m mrs1) (loc_of_shr_record mrs1)) as Hr.
  fold m2 in Hr.
  destruct (shr_fexp prec emax m2 e1 loc_Exact) as [mrs2 e2] eqn:H2.
  destruct (shr_fexp_bounds m2 e1 loc_Exact mrs2 e2 ltac:(lia) H2) as (Hm2 & He2 & _).
  pose proof (Zdigits2_le m2 (shr_m mrs1 + 1) ltac:(lia)) as Hle.
  pose proof (Zdigits2_succ (shr_m mrs1) Hm1) as Hsucc.
  rewrite fexp_eq in He1, He2.
  cbv zeta. destruct (shr_m mrs2) as [|m|m] eqn:Hm; [now left| |lia].
  right. change (emax - prec) with 971.
  replace (e2 <=? 971) with true by (symmetry; apply Z.leb_le; lia).
  eauto.
Qed.

(** *** Integers and their reciprocals *)

Lemma iter_xO (k p : positive) : Zpos (Pos.iter xO p k) = Zpos p * 2 ^ Zpos k.
Proof.
  induction k as [|k IH] using Pos.peano_ind.
  - simpl. lia.
  - rewrite Pos.iter_succ, Pos2Z.inj_xO, IH, Pos2Z.inj_succ.
    rewrite Z.pow_succ_r by lia. ring.
Qed.

(** A positive integer below 2^53 converts to a normal number with a
    full mantissa and an exponent between -52 and 0. *)
Lemma of_Z_small (n : Z) :
  1 <= n < 2 ^ 53 ->
  exists (M : positive) (E : Z),
    of_Z n = S754_finite false M E
    /\ Zpos (digits2_pos M) = 53 /\ -52 <= E <= 0.
Proof.
  intros [Hlo Hhi]. destruct n as [|p|p]; try lia.
  assert (Hd : 1 <= Zpos (digits2_pos p) <= 53).
  { rewrite digits2_log2. pose proof (Z.log2_nonneg (Zpos p)).
    apply Z.log2_lt_pow2 in Hhi; lia. }
  unfold of_Z, binary_normalize, binary_round.
  rewrite Z.add_0_r, fexp_eq.
  replace (Z.max (Zpos (digits2_pos p) - 53) (-1074))
    with (Zpos (digits2_pos p) - 53) by lia.
  unfold shl_align. rewrite Z.sub_0_r.
  destruct (Zpos (digits2_pos p) - 53) as [|k|k] eqn:Hk; try lia.
  - exists p, 0. split; [|lia].
    replace (Zpos p) with (Zpos p * 2 ^ 0) by lia.
    change 0 with (0 - 0) at 2.
    apply binary_round_aux_exact; [lia|].
    apply bounded_intro; lia.
  - exists (Pos.iter xO p k), (Zneg k).
    assert (Hdig : Zpos (digits2_pos (Pos.iter xO p k)) = 53).
    { change (Zpos (digits2_pos (Pos.iter xO p k)))
        with (Zdigits2 (Zpos (Pos.iter xO p k))).
      rewrite iter_xO, digits2_shift; lia. }
    split; [|lia].
    replace (Zpos (Pos.iter xO p k)) with (Zpos (Pos.iter xO p k) * 2 ^ 0) by lia.
    replace (Zneg k) with (Zneg k - 0) at 1 by lia.
    apply binary_round_aux_exact; [lia|].
    apply bounded_intro; lia.
Qed.

(** The reciprocal of such an integer is a non-negative finite number. *)
Lemma recip_finite (n : Z) :
  1 <= n < 2 ^ 53 ->
  (one / of_Z n)%js = S754_zero false
  \/ exists m e, (one / of_Z n)%js = S754_finite false m e.
Proof.
  intros Hn. destruct (of_Z_small n Hn) as (M & E & -> & Hd & HE).
  rewrite one_eq. unfold div, SFdiv, SFdiv_core_binary.
  cbn [Zdigits2 xorb]. rewrite Hd.
  change (Zpos (digits2_pos 4503599627370496)) with 53.
  rewrite fexp_eq.
  replace (Z.min (Z.max (53 + -52 - (53 + E) - 53) (-1074)) (-52 - E))
    with (-105 - E) by lia.
  replace (-52 - E - (-105 - E)) with 53 by lia.
  cbv iota beta.
  change (Z.shiftl 4503599627370496 53) with (2 ^ 105).
  destruct (Z.div_eucl (2 ^ 105) (Zpos M)) as [q r] eqn:Hdiv.
  assert (Hq : q = 2 ^ 105 / Zpos M) by (unfold Z.div; now rewrite Hdiv).
  assert (HM : 2 ^ 52 <= Zpos M).
  { apply Z.log2_le_pow2; [lia|]. rewrite digits2_log2 in Hd. lia. }
  assert (Hq0 : 0 <= q) by (subst q; apply Z.div_pos; lia).
  assert (Hq1 : q <= 2 ^ 53).
  { subst q. change (2 ^ 53) with (2 ^ 105 / 2 ^ 52).
    apply Z.div_le_compat_l; lia. }
  apply binary_round_aux_finite; try lia.
  pose proof (Zdigits2_le q (2 ^ 53) ltac:(lia)) as Hdq.
  change (Zdigits2 (2 ^ 53)) with 54 in Hdq. lia.
Qed.

(** The first parameter of a sampling with at least one step is
    (positive) zero. *)
Lemma param_first (n : Z) : 1 <= n < 2 ^ 53 -> param n 0 = zero.
Proof.
  intros Hn. unfold param. change (of_Z 0) with (S754_zero false).
  destruct (recip_finite n Hn) as [->|(m & e & ->)]; reflexivity.
Qed.

(** *** The constants of the blend *)

Lemma sub_one_zero (t : float) : is_zero t = true -> (one - t)%js = one.
Proof. destruct t; try discriminate. reflexivity. Qed.

Lemma mul_two_zero (t : float) : is_zero t = true -> is_zero (two * t)%js = true.
Proof. destruct t; try discriminate. reflexivity. Qed.

Lemma mul_zero_zero (t : float) : is_zero t = true -> is_zero (t * t)%js = true.
Proof. destruct t; try discriminate. reflexivity. Qed.

Lemma is_zero_finite (z : float) : is_zero z = true -> is_finite z = true.
Proof. destruct z; try discriminate. reflexivity. Qed.

Lemma add_zeros_r (a z1 z2 : float) :
  is_finite a = true -> is_zero z1 = true -> is_zero z2 = true ->
  ((a + z1 + z2) === a)%js.
Proof.
  destruct z1 as [s1| | |], z2 as [s2| | |]; try discriminate.
  destruct a as [s|s| |s m e]; try discriminate; intros _ _ _.
  - destruct s, s1, s2; reflexivity.
  - apply (eqb_refl (S754_finite s m e)). reflexivity.
Qed.

Lemma add_zeros_l (z1 z2 b : float) :
  is_zero z1 = true -> is_zero z2 = true -> is_finite b = true ->
  ((z1 + z2 + b) === b)%js.
Proof.
  destruct z1 as [s1| | |], z2 as [s2| | |]; try discriminate.
  destruct b as [s|s| |s m e]; try discriminate; intros _ _ _.
  - destruct s, s1, s2; reflexivity.
  - destruct s1, s2; apply (eqb_refl (S754_finite s m e)); reflexivity.
Qed.

(** [===] on finite numbers is identity up to the sign of zero. *)
Lemma eqb_eq (x y : float) :
  (x === y)%js -> x = y \/ (is_zero x = true /\ is_zero y = true).
Proof.
  unfold eqb, SFeqb.
  destruct x as [sx|sx| |sx mx ex], y as [sy|sy| |sy my ey]; simpl;
    try discriminate; try (destruct sx; discriminate);
    try (destruct sy; discriminate); auto.
  - destruct sx, sy; try discriminate; auto.
  - change (Pos.compare_cont Eq mx my) with (Pos.compare mx my).
    destruct sx, sy; try discriminate;
      destruct (Z.compare_spec ex ey) as [->| |]; try discriminate;
      destruct (Pos.compare_spec mx my) as [->| |]; try discriminate; auto.
Qed.

(** *** Sums of numbers of one sign, and the blend at one half *)

Lemma shl_align_spec (m : positive) (e e' : Z) :
  let '(m', e'') := shl_align m e e' in
  e'' = Z.min e e' /\ Zpos (digits2_pos m') + e'' = Zpos (digits2_pos m) + e
  /\ Zpos m' = Zpos m * 2 ^ (e - e'').
Proof.
  unfold shl_align. destruct (e' - e) as [|d|d] eqn:Hd.
  - repeat split; try lia. replace (e - e) with 0 by lia. lia.
  - repeat split; try lia. replace (e - e) with 0 by lia. lia.
  - assert (Hsh : e - e' = Zpos d) by lia.
    rewrite Hsh. split; [lia|]. split; [|apply iter_xO].
    change (Zpos (digits2_pos (Pos.iter xO m d)))
      with (Zdigits2 (Zpos (Pos.iter xO m d))).
    rewrite iter_xO, digits2_shift; lia.
Qed.

(** One right shift of a non-negative mantissa: the quotient by two,
    the bit shifted out, and whether anything was shifted out before. *)
Lemma shr_1_spec (m : Z) (r s : bool) :
  0 <= m ->
  shr_1 {| shr_m := m; shr_r := r; shr_s := s |}
  = {| shr_m := m / 2; shr_r := Z.odd m; shr_s := r || s |}.
Proof.
  intros Hm. rewrite <- Z.div2_div.
  destruct m as [|[p|p|]|p]; try reflexivity. lia.
Qed.

Lemma Zpos_digits_bounds (p : positive) (d : Z) :
  Zpos (digits2_pos p) = d -> 2 ^ (d - 1) <= Zpos p < 2 ^ d.
Proof.
  intros Hd. rewrite digits2_log2 in Hd.
  pose proof (Z.log2_spec (Zpos p) ltac:(lia)) as H.
  replace (d - 1) with (Z.log2 (Zpos p)) by lia.
  replace d with (Z.succ (Z.log2 (Zpos p))) by lia. exact H.
Qed.

Lemma Zdigits2_53 (z : Z) : 2 ^ 52 <= z < 2 ^ 53 -> Zdigits2 z = 53.
Proof.
  intros Hz. rewrite Zdigits2_log2 by lia.
  assert (Z.log2 z = 52); [|lia].
  apply Z.log2_unique; lia.
Qed.

(** Rounding a mantissa of 54 or 55 bits. *)
Lemma binary_round_keep (s : bool) (t : positive) (e k : Z) :
  k = 1 \/ k = 2 ->
  Zpos (digits2_pos t) = 53 + k ->
  -1074 <= e + k -> e + k <= 971 ->
  binary_round prec emax s t e
  = if keep k (Zpos t) =? 2 ^ 53
    then (if e + k + 1 <=? 971
          then S754_finite s 4503599627370496 (e + k + 1)
          else S754_infinity s)
    else S754_finite s (Z.to_pos (keep k (Zpos t))) (e + k).
Proof.
  intros Hk Hd Hlo Hhi.
  pose proof (Zpos_digits_bounds t _ Hd) as Ht.
  unfold binary_round. rewrite Hd, fexp_eq.
  replace (Z.max (53 + k + e - 53) (-1074)) with (e + k) by lia.
  unfold shl_align.
  assert (Hsub : e + k - e = k) by lia. rewrite Hsub.
  assert (Hal : match k with Zneg d => (Pos.iter xO t d, e + k) | _ => (t, e) end = (t, e))
    by (destruct Hk as [-> | ->]; reflexivity).
  rewrite Hal.
  unfold binary_round_aux, shr_fexp. cbn [Zdigits2 shr_record_of_loc].
  rewrite Hd, fexp_eq.
  replace (Z.max (53 + k + e - 53) (-1074) - e) with k by lia.
  set (r0 := {| shr_m := Zpos t; shr_r := false; shr_s := false |}).
  assert (Hshr : exists u r st,
             shr r0 e k = ({| shr_m := u; shr_r := r; shr_s := st |}, e + k)
             /\ round_nearest_even u
                  (loc_of_shr_record {| shr_m := u; shr_r := r; shr_s := st |})
                = keep k (Zpos t)
             /\ 2 ^ 52 <= u < 2 ^ 53).
  { destruct Hk as [-> | ->].
    - exists (Zpos t / 2), (Z.odd (Zpos t)), false.
      split; [|split].
      + unfold shr, r0. cbn [SpecFloat.iter_pos]. now rewrite shr_1_spec by lia.
      + unfold keep. cbn [Z.eqb Pos.eqb]. destruct (Z.odd (Zpos t)); reflexivity.
      + change (2 ^ (53 + 1 - 1)) with (2 * 2 ^ 52) in Ht.
        change (2 ^ (53 + 1)) with (2 * 2 ^ 53) in Ht.
        split; [apply Z.div_le_lower_bound; lia|apply Z.div_lt_upper_bound; lia].
    - exists (Zpos t / 4), (Z.odd (Zpos t / 2)), (Z.odd (Zpos t)).
      split; [|split].
      + unfold shr, r0. cbn [SpecFloat.iter_pos].
        rewrite shr_1_spec by lia.
        rewrite shr_1_spec by (apply Z.div_pos; lia).
        rewrite Z.div_div by lia. rewrite orb_false_r. reflexivity.
      + unfold keep. cbn [Z.eqb Pos.eqb].
        destruct (Z.odd (Zpos t / 2)), (Z.odd (Zpos t)); reflexivity.
      + change (2 ^ (53 + 2 - 1)) with (4 * 2 ^ 52) in Ht.
        change (2 ^ (53 + 2)) with (4 * 2 ^ 53) in Ht.
        split; [apply Z.div_le_lower_bound; lia|apply Z.div_lt_upper_bound; lia]. }
  destruct Hshr as (u & r & st & -> & Hkeep & Hu).
  cbn [shr_m]. rewrite Hkeep.
  pose proof (round_nearest_even_bounds u
                (loc_of_shr_record {| shr_m := u; shr_r := r; shr_s := st |})) as Hr.
  rewrite Hkeep in Hr. clear Hkeep.
  set (m2 := keep k (Zpos t)) in *. clearbody m2.
  destruct (m2 =? 2 ^ 53) eqn:Htop.
  - apply Z.eqb_eq in Htop. subst m2.
    change (Zdigits2 (2 ^ 53)) with 54. rewrite fexp_eq.
    replace (Z.max (54 + (e + k) - 53) (-1074) - (e + k)) with 1 by lia.
    cbn [shr SpecFloat.iter_pos]. rewrite shr_1_spec by lia.
    cbn [shr_m]. change (2 ^ 53 / 2) with (Zpos 4503599627370496).
    change (emax - prec) with 971.
    reflexivity.
  - apply Z.eqb_neq in Htop.
    rewrite (Zdigits2_53 m2) by lia. rewrite fexp_eq.
    replace (Z.max (53 + (e + k) - 53) (-1074) - (e + k)) with 0 by lia.
    cbn [shr shr_m].
    destruct m2 as [|p|p]; try lia.
    change (emax - prec) with 971.
    replace (e + k <=? 971) with true by (symmetry; apply Z.leb_le; lia).
    reflexivity.
Qed.

Ltac split_parity :=
  repeat match goal with
         | |- context [Z.even ?z] => rewrite <- (Z.negb_odd z)
         end;
  repeat match goal with
         | |- context [Z.odd ?z] =>
             let H := fresh "Hodd" in
             pose proof (Zmod_odd z) as H; destruct (Z.odd z); cbv beta iota in H; cbn [negb]; cbv beta iota
         end.

Ltac div_lia := Z.to_euclidean_division_equations; lia.

Lemma keep1_triple (m : Z) :
  2 ^ 52 <= m < 2 ^ 53 -> 3 * m < 2 ^ 54 ->
  2 ^ 52 <= keep 1 (3 * m) <= 2 ^ 53
  /\ 2 ^ 54 <= keep 1 (3 * m) * 2 + m < 2 ^ 55
  /\ keep 2 (keep 1 (3 * m) * 2 + m) = m.
Proof.
  change (2 ^ 52) with 4503599627370496. change (2 ^ 53) with 9007199254740992.
  change (2 ^ 54) with 18014398509481984. change (2 ^ 55) with 36028797018963968.
  intros Hm H3. remember (keep 1 (3 * m)) as K eqn:HK.
  assert (HK' : 2 * K = 3 * m \/ 2 * K = 3 * m - 1 \/ 2 * K = 3 * m + 1).
  { subst K. unfold keep. cbn [Z.eqb Pos.eqb]. split_parity; div_lia. }
  clear HK. split; [lia|]. split; [lia|].
  unfold keep. cbn [Z.eqb Pos.eqb]. split_parity; div_lia.
Qed.

Lemma keep2_triple (m : Z) :
  2 ^ 52 <= m < 2 ^ 53 -> 2 ^ 54 <= 3 * m ->
  2 ^ 52 <= keep 2 (3 * m) < 2 ^ 53
  /\ 2 ^ 54 <= keep 2 (3 * m) * 4 + m < 2 ^ 55
  /\ keep 2 (keep 2 (3 * m) * 4 + m) = m.
Proof.
  change (2 ^ 52) with 4503599627370496. change (2 ^ 53) with 9007199254740992.
  change (2 ^ 54) with 18014398509481984. change (2 ^ 55) with 36028797018963968.
  intros Hm H3. remember (keep 2 (3 * m)) as K eqn:HK.
  assert (HK' : -2 <= 4 * K - 3 * m <= 2).
  { subst K. unfold keep. cbn [Z.eqb Pos.eqb]. split_parity; div_lia. }
  clear HK. split; [lia|]. split; [lia|].
  unfold keep. cbn [Z.eqb Pos.eqb]. split_parity; div_lia.
Qed.

Lemma normal_digits (m : positive) (e : Z) :
  bounded prec emax m e = true -> -1072 <= e ->
  Zpos (digits2_pos m) = 53.
Proof.
  intros Hb He. destruct (bounded_inv m e Hb) as [Hcan _].
  apply canonical_inv in Hcan. rewrite fexp_eq in Hcan. lia.
Qed.

Lemma mul_quarter (s : bool) (m : positive) (e : Z) :
  bounded prec emax m e = true -> -1072 <= e ->
  (lit_0_25 * S754_finite s m e)%js = S754_finite s m (e - 2).
Proof.
  intros Hb He. pose proof (normal_digits m e Hb He) as Hd.
  destruct (bounded_inv m e Hb) as [_ Hle].
  unfold lit_0_25, mul, SFmul. cbn [xorb].
  replace (Zpos (4503599627370496 * m)) with (Zpos m * 2 ^ 52) by lia.
  replace (-54 + e) with (e - 2 - 52) by lia.
  apply binary_round_aux_exact; [lia|].
  apply bounded_intro; lia.
Qed.

Lemma mul_half (s : bool) (m : positive) (e : Z) :
  bounded prec emax m e = true -> -1072 <= e ->
  (lit_0_5 * S754_finite s m e)%js = S754_finite s m (e - 1).
Proof.
  intros Hb He. pose proof (normal_digits m e Hb He) as Hd.
  destruct (bounded_inv m e Hb) as [_ Hle].
  unfold lit_0_5, mul, SFmul. cbn [xorb].
  replace (Zpos (4503599627370496 * m)) with (Zpos m * 2 ^ 52) by lia.
  replace (-53 + e) with (e - 1 - 52) by lia.
  apply binary_round_aux_exact; [lia|].
  apply bounded_intro; lia.
Qed.

Lemma add_same_sign (s : bool) (m1 m2 t : positive) (e1 e2 : Z) :
  Zpos t = Zpos m1 * 2 ^ (e1 - Z.min e1 e2) + Zpos m2 * 2 ^ (e2 - Z.min e1 e2) ->
  (S754_finite s m1 e1 + S754_finite s m2 e2)%js
  = binary_round prec emax s t (Z.min e1 e2).
Proof.
  intros Ht. unfold add, SFadd.
  pose proof (shl_align_spec m1 e1 (Z.min e1 e2)) as H1.
  pose proof (shl_align_spec m2 e2 (Z.min e1 e2)) as H2.
  destruct (shl_align m1 e1 (Z.min e1 e2)) as [n1 f1].
  destruct (shl_align m2 e2 (Z.min e1 e2)) as [n2 f2].
  destruct H1 as (Hf1 & _ & Hn1). destruct H2 as (Hf2 & _ & Hn2).
  cbn [fst].
  assert (Ef1 : f1 = Z.min e1 e2) by lia.
  assert (Ef2 : f2 = Z.min e1 e2) by lia.
  clear Hf1 Hf2. subst f1 f2.
  assert (Hsum : cond_Zopp s (Zpos n1) + cond_Zopp s (Zpos n2)
                 = cond_Zopp s (Zpos t)).
  { rewrite Ht, <- Hn1, <- Hn2. destruct s; cbn [cond_Zopp]; lia. }
  rewrite Hsum. destruct s; reflexivity.
Qed.

(** The weighted sum at parameter one half of three copies of a normal
    number is that number: both roundings cancel. *)
Lemma blend_half_normal (s : bool) (m : positive) (e : Z) :
  bounded prec emax m e = true -> -1072 <= e ->
  let x := S754_finite s m e in
  (lit_0_25 * x + lit_0_5 * x + lit_0_25 * x)%js = x.
Proof.
  intros Hb He x. subst x.
  pose proof (normal_digits m e Hb He) as Hd.
  destruct (bounded_inv m e Hb) as [_ Hle].
  pose proof (Zpos_digits_bounds m 53 Hd) as Hm.
  change (53 - 1) with 52 in Hm.
  rewrite mul_quarter, mul_half by assumption.
  rewrite (add_same_sign s m m (m + m~0) (e - 2) (e - 1)).
  2:{ replace (Z.min (e - 2) (e - 1)) with (e - 2) by lia.
      replace (e - 2 - (e - 2)) with 0 by lia.
      replace (e - 1 - (e - 2)) with 1 by lia. lia. }
  replace (Z.min (e - 2) (e - 1)) with (e - 2) by lia.
  assert (H3 : Zpos (m + m~0) = 3 * Zpos m) by lia.
  destruct (Z.lt_ge_cases (3 * Zpos m) (2 ^ 54)) as [Hlt|Hge].
  - destruct (keep1_triple (Zpos m) Hm Hlt) as (HK & HN & Hkeep).
    rewrite (binary_round_keep s (m + m~0) (e - 2) 1); [|now left| | lia | lia].
    2:{ change (Zpos (digits2_pos (m + m~0))) with (Zdigits2 (Zpos (m + m~0))).
        rewrite Zdigits2_log2 by lia.
        rewrite (Z.log2_unique (Zpos (m + m~0)) 53); lia. }
    rewrite H3. set (K := keep 1 (3 * Zpos m)) in *.
    destruct (K =? 2 ^ 53) eqn:HK53.
    + apply Z.eqb_eq in HK53.
      replace (e - 2 + 1 + 1 <=? 971) with true by (symmetry; apply Z.leb_le; lia).
      rewrite (add_same_sign s 4503599627370496 m (Z.to_pos (K * 2 + Zpos m))
                 (e - 2 + 1 + 1) (e - 2)).
      2:{ replace (Z.min (e - 2 + 1 + 1) (e - 2)) with (e - 2) by lia.
          replace (e - 2 + 1 + 1 - (e - 2)) with 2 by lia.
          replace (e - 2 - (e - 2)) with 0 by lia.
          rewrite Z2Pos.id by lia. rewrite HK53. lia. }
      replace (Z.min (e - 2 + 1 + 1) (e - 2)) with (e - 2) by lia.
      rewrite (binary_round_keep s _ (e - 2) 2); [|now right| | lia | lia].
      2:{ change (Zpos (digits2_pos ?p)) with (Zdigits2 (Zpos p)).
          rewrite Z2Pos.id by lia.
          rewrite Zdigits2_log2 by lia.
          rewrite (Z.log2_unique (K * 2 + Zpos m) 54); lia. }
      rewrite Z2Pos.id by lia. rewrite Hkeep.
      replace (Zpos m =? 2 ^ 53) with false by (symmetry; apply Z.eqb_neq; lia).
      f_equal. lia.
    + apply Z.eqb_neq in HK53.
      rewrite (add_same_sign s (Z.to_pos K) m (Z.to_pos (K * 2 + Zpos m))
                 (e - 2 + 1) (e - 2)).
      2:{ replace (Z.min (e - 2 + 1) (e - 2)) with (e - 2) by lia.
          replace (e - 2 + 1 - (e - 2)) with 1 by lia.
          replace (e - 2 - (e - 2)) with 0 by lia.
          rewrite !Z2Pos.id by lia. lia. }
      replace (Z.min (e - 2 + 1) (e - 2)) with (e - 2) by lia.
      rewrite (binary_round_keep s _ (e - 2) 2); [|now right| | lia | lia].
      2:{ change (Zpos (digits2_pos ?p)) with (Zdigits2 (Zpos p)).
          rewrite Z2Pos.id by lia.
          rewrite Zdigits2_log2 by lia.
          rewrite (Z.log2_unique (K * 2 + Zpos m) 54); lia. }
      rewrite Z2Pos.id by lia. rewrite Hkeep.
      replace (Zpos m =? 2 ^ 53) with false by (symmetry; apply Z.eqb_neq; lia).
      f_equal. lia.
  - destruct (keep2_triple (Zpos m) Hm Hge) as (HK & HN & Hkeep).
    rewrite (binary_round_keep s (m + m~0) (e - 2) 2); [|now right| | lia | lia].
    2:{ change (Zpos (digits2_pos (m + m~0))) with (Zdigits2 (Zpos (m + m~0))).
        rewrite Zdigits2_log2 by lia.
        rewrite (Z.log2_unique (Zpos (m + m~0)) 54); lia. }
    rewrite H3. set (K := keep 2 (3 * Zpos m)) in *.
    replace (K =? 2 ^ 53) with false by (symmetry; apply Z.eqb_neq; lia).
    rewrite (add_same_sign s (Z.to_pos K) m (Z.to_pos (K * 4 + Zpos m))
               (e - 2 + 2) (e - 2)).
    2:{ replace (Z.min (e - 2 + 2) (e - 2)) with (e - 2) by lia.
        replace (e - 2 + 2 - (e - 2)) with 2 by lia.
        replace (e - 2 - (e - 2)) with 0 by lia.
        rewrite !Z2Pos.id by lia. lia. }
    replace (Z.min (e - 2 + 2) (e - 2)) with (e - 2) by lia.
    rewrite (binary_round_keep s _ (e - 2) 2); [|now right| | lia | lia].
    2:{ change (Zpos (digits2_pos ?p)) with (Zdigits2 (Zpos p)).
        rewrite Z2Pos.id by lia.
        rewrite Zdigits2_log2 by lia.
        rewrite (Z.log2_unique (K * 4 + Zpos m) 54); lia. }
    rewrite Z2Pos.id by lia. rewrite Hkeep.
    replace (Zpos m =? 2 ^ 53) with false by (symmetry; apply Z.eqb_neq; lia).
    f_equal. lia.
Qed.


(** *** The loop counter

    The value of a converted integer, and the increment [t++]: on a
    counter that stays below 2^53 it is the integer successor, and at
    2^53 it no longer advances. *)
Lemma of_Z_value (n : Z) :
  1 <= n < 2 ^ 53 ->
  exists (M : positive) (E : Z),
    of_Z n = S754_finite false M E
    /\ Zpos (digits2_pos M) = 53 /\ -52 <= E <= 0
    /\ Zpos M = n * 2 ^ (- E).
Proof.
  intros [Hlo Hhi]. destruct n as [|p|p]; try lia.
  assert (Hd : 1 <= Zpos (digits2_pos p) <= 53).
  { rewrite digits2_log2. pose proof (Z.log2_nonneg (Zpos p)).
    apply Z.log2_lt_pow2 in Hhi; lia. }
  unfold of_Z, binary_normalize, binary_round.
  rewrite Z.add_0_r, fexp_eq.
  replace (Z.max (Zpos (digits2_pos p) - 53) (-1074))
    with (Zpos (digits2_pos p) - 53) by lia.
  unfold shl_align. rewrite Z.sub_0_r.
  destruct (Zpos (digits2_pos p) - 53) as [|k|k] eqn:Hk; try lia.
  - exists p, 0. split; [|split; [lia|split; [lia|simpl; lia]]].
    replace (Zpos p) with (Zpos p * 2 ^ 0) by lia.
    change 0 with (0 - 0) at 2.
    apply binary_round_aux_exact; [lia|].
    apply bounded_intro; lia.
  - exists (Pos.iter xO p k), (Zneg k).
    assert (Hdig : Zpos (digits2_pos (Pos.iter xO p k)) = 53).
    { change (Zpos (digits2_pos (Pos.iter xO p k)))
        with (Zdigits2 (Zpos (Pos.iter xO p k))).
      rewrite iter_xO, digits2_shift; lia. }
    split; [|split; [lia|split; [lia|apply iter_xO]]].
    replace (Zpos (Pos.iter xO p k)) with (Zpos (Pos.iter xO p k) * 2 ^ 0) by lia.
    replace (Zneg k) with (Zneg k - 0) at 1 by lia.
    apply binary_round_aux_exact; [lia|].
    apply bounded_intro; lia.
Qed.

Lemma counter_exact (t : Z) :
  0 <= t -> t + 1 < 2 ^ 53 -> (of_Z t + one)%js = of_Z (t + 1).
Proof.
  intros H0 Hlt. destruct (Z.eq_dec t 0) as [->|Hne]; [reflexivity|].
  destruct (of_Z_value t ltac:(lia)) as (M & E & -> & Hd & HE & HM).
  destruct (of_Z_value (t + 1) ltac:(lia)) as (M' & E' & -> & Hd' & HE' & HM').
  rewrite one_eq.
  assert (Hpos : 0 < (t + 1) * 2 ^ 52) by lia.
  rewrite (add_same_sign false M 4503599627370496 (Z.to_pos ((t + 1) * 2 ^ 52))
             E (-52)).
  2:{ replace (Z.min E (-52)) with (-52) by lia.
      rewrite Z2Pos.id by lia. rewrite HM.
      replace (-52 - -52) with 0 by lia.
      rewrite <- Z.mul_assoc, <- Z.pow_add_r by lia.
      replace (- E + (E - -52)) with 52 by lia. lia. }
  replace (Z.min E (-52)) with (-52) by lia.
  assert (HT : Zpos (Z.to_pos ((t + 1) * 2 ^ 52)) = Zpos M' * 2 ^ (E' + 52)).
  { rewrite Z2Pos.id by lia. rewrite HM'.
    rewrite <- Z.mul_assoc, <- Z.pow_add_r by lia.
    do 2 f_equal. lia. }
  unfold binary_round.
  change (Zpos (digits2_pos ?p)) with (Zdigits2 (Zpos p)).
  rewrite HT, digits2_shift by lia. rewrite fexp_eq.
  cbn [Zdigits2]. rewrite Hd'.
  replace (Z.max (53 + (E' + 52) + -52 - 53) (-1074)) with E' by lia.
  unfold shl_align.
  destruct (E' - -52) as [|d|d] eqn:Hsh; try lia.
  - rewrite HT.
    replace (binary_round_aux prec emax false (Zpos M' * 2 ^ (E' + 52)) (-52) loc_Exact)
      with (binary_round_aux prec emax false (Zpos M' * 2 ^ (E' + 52))
              (E' - (E' + 52)) loc_Exact) by (f_equal; lia).
    apply binary_round_aux_exact; [lia|]. apply bounded_intro; lia.
  - rewrite HT.
    replace (binary_round_aux prec emax false (Zpos M' * 2 ^ (E' + 52)) (-52) loc_Exact)
      with (binary_round_aux prec emax false (Zpos M' * 2 ^ (E' + 52))
              (E' - (E' + 52)) loc_Exact) by (f_equal; lia).
    apply binary_round_aux_exact; [lia|]. apply bounded_intro; lia.
Qed.

Lemma counter_stalls :
  (of_Z (2 ^ 53) + one)%js = of_Z (2 ^ 53).
Proof. vm_compute. reflexivity. Qed.

End NumFacts.

(** ** The sampling loop *)

Section Loop.

Lemma getPoint_ext (a b : Curve) (t : Num.float) :
  from a = from b -> control a = control b -> to a = to b ->
  getPoint a t = getPoint b t.
Proof.
  intros Hf Hc Ht. unfold getPoint, bezier. now rewrite Hf, Hc, Ht.
Qed.

Lemma samples_ext (a b : Curve) (n t : Z) (k : nat) :
  from a = from b -> control a = control b -> to a = to b ->
  samples a n t k = samples b n t k.
Proof.
  intros Hf Hc Ht. revert t.
  induction k as [|k IH]; intros t; simpl; [reflexivity|].
  now rewrite IH, (getPoint_ext a b).
Qed.

Lemma length_samples (self : Curve) (n t : Z) (k : nat) :
  length (samples self n t k) = k.
Proof.
  revert t. induction k as [|k IH]; intros t; simpl; [reflexivity|].
  now rewrite IH.
Qed.

Lemma lookup_samples (self : Curve) (n t : Z) (k i : nat) :
  (i < k)%nat ->
  samples self n t k !! i = Some (getPoint self (param n (t + Z.of_nat i))).
Proof.
  revert t i. induction k as [|k IH]; intros t i Hi; [lia|].
  destruct i as [|i]; simpl.
  - now rewrite Z.add_0_r.
  - rewrite IH by lia. do 3 f_equal. lia.
Qed.

Lemma effectiveSteps_even (o : Options) : Z.even (effectiveSteps o) = true.
Proof.
  unfold effectiveSteps.
  pose proof (Z.quot_rem' (steps o) 2) as Hqr.
  pose proof (Z.rem_bound_abs (steps o) 2 ltac:(lia)) as Hb.
  destruct (Z.rem (steps o) 2 =? 0) eqn:Hr.
  - apply Z.eqb_eq in Hr. rewrite Hqr, Hr, Z.add_0_r.
    now rewrite Z.even_mul.
  - apply Z.eqb_neq in Hr.
    assert (Hcases : Z.rem (steps o) 2 = 1 \/ Z.rem (steps o) 2 = -1) by lia.
    destruct Hcases as [H1|H1].
    + replace (steps o + 1) with (2 * (Z.quot (steps o) 2 + 1)) by lia.
      now rewrite Z.even_mul.
    + replace (steps o + 1) with (2 * Z.quot (steps o) 2) by lia.
      now rewrite Z.even_mul.
Qed.

Lemma effectiveSteps_parity (o : Options) :
  effectiveSteps o = if Z.even (steps o) then steps o else steps o + 1.
Proof.
  unfold effectiveSteps.
  pose proof (Z.quot_rem' (steps o) 2) as Hqr.
  destruct (Z.rem (steps o) 2 =? 0) eqn:Hr.
  - apply Z.eqb_eq in Hr.
    assert (He : Z.even (steps o) = true).
    { rewrite Hqr, Hr, Z.add_0_r. now rewrite Z.even_mul. }
    now rewrite He.
  - apply Z.eqb_neq in Hr.
    destruct (Z.even (steps o)) eqn:He; [|reflexivity].
    apply Z.even_spec in He. destruct He as [k Hk].
    exfalso. apply Hr. rewrite Hk. rewrite Z.mul_comm. apply Z.rem_mul. lia.
Qed.

(** The loop started at index [t] with enough fuel ends, having
    appended the samples at [t .. n] and recorded the sample at
    [n / 2] when that index is still ahead. *)
Lemma sampling_loop_run (fuel : nat) :
  forall (n t : Z) (self : Curve) (acc : list LatLng),
    0 <= t ->
    points self = Some acc ->
    (Z.to_nat (n + 1 - t) < fuel)%nat ->
    exists self',
      sampling_loop fuel n t self = Some self'
      /\ points self' = Some (acc ++ samples self n t (Z.to_nat (n + 1 - t)))
      /\ middlePoint self' =
           (if (2 * t <=? n) && Z.even n
            then Some (getPoint self (param n (n / 2)))
            else middlePoint self)
      /\ from self' = from self /\ to self' = to self
      /\ control self' = control self /\ opts self' = opts self
      /\ overlay self' = overlay self.
Proof.
  induction fuel as [|fuel IH]; intros n t self acc Ht Hacc Hfuel; [lia|].
  simpl. destruct (t <=? n) eqn:Hguard.
  - apply Z.leb_le in Hguard.
    set (pt := getPoint self (param n t)).
    set (self1 := if 2 * t =? n then set_middlePoint pt self else self).
    assert (Hgeo : from self1 = from self /\ to self1 = to self
                   /\ control self1 = control self /\ opts self1 = opts self
                   /\ overlay self1 = overlay self /\ points self1 = Some acc).
    { unfold self1. destruct (2 * t =? n); simpl; auto 10. }
    destruct Hgeo as (Hf1 & Ht1 & Hc1 & Ho1 & Hov1 & Hp1).
    set (self2 := push_point pt self1).
    assert (Hp2 : points self2 = Some (acc ++ [pt])).
    { unfold self2, push_point. now rewrite Hp1. }
    assert (Hgeo2 : from self2 = from self /\ to self2 = to self
                    /\ control self2 = control self /\ opts self2 = opts self
                    /\ overlay self2 = overlay self
                    /\ middlePoint self2 = middlePoint self1).
    { unfold self2, push_point. rewrite Hp1. simpl. auto 10. }
    destruct Hgeo2 as (Hf2 & Ht2 & Hc2 & Ho2 & Hov2 & Hm2).
    destruct (IH n (t + 1) self2 (acc ++ [pt]) ltac:(lia) Hp2 ltac:(lia))
      as (self' & Hrun & Hps & Hmid & Hf & Hto & Hc & Ho & Hov).
    exists self'. split; [exact Hrun|].
    replace (Z.to_nat (n + 1 - t)) with (S (Z.to_nat (n + 1 - (t + 1)))) by lia.
    simpl. repeat split; try congruence.
    + rewrite Hps, <- app_assoc. simpl.
      now rewrite (samples_ext self2 self) by assumption.
    + rewrite Hmid, Hm2. unfold self1.
      destruct (2 * t =? n) eqn:Hhalf.
      * apply Z.eqb_eq in Hhalf.
        replace (2 * (t + 1) <=? n) with false by (symmetry; apply Z.leb_gt; lia).
        replace (2 * t <=? n) with true by (symmetry; apply Z.leb_le; lia).
        assert (He : Z.even n = true) by (rewrite <- Hhalf; now rewrite Z.even_mul).
        rewrite He. simpl. unfold pt. do 3 f_equal.
        rewrite <- Hhalf. rewrite Z.mul_comm. now rewrite Z.div_mul.
      * apply Z.eqb_neq in Hhalf.
        destruct (Z.even n) eqn:He.
        -- apply Z.even_spec in He. destruct He as [k Hk].
           rewrite !andb_true_r.
           destruct (2 * t <=? n) eqn:Hle.
           ++ apply Z.leb_le in Hle.
              replace (2 * (t + 1) <=? n) with true by (symmetry; apply Z.leb_le; lia).
              now rewrite (getPoint_ext self2 self).
           ++ apply Z.leb_gt in Hle.
              now replace (2 * (t + 1) <=? n) with false by (symmetry; apply Z.leb_gt; lia).
        -- now rewrite !andb_false_r.
  - apply Z.leb_gt in Hguard.
    exists self. split; [reflexivity|].
    replace (Z.to_nat (n + 1 - t)) with O by lia.
    simpl. rewrite app_nil_r.
    replace (2 * t <=? n) with false by (symmetry; apply Z.leb_gt; lia).
    auto 10.
Qed.

(** What the first call on an object without cached points does, in
    terms of the loop above. *)
Lemma getPolylinePoints_fresh (self : Curve) :
  points self = None ->
  let n := effectiveSteps (opts self) in
  let ps := samples self n 0 (Z.to_nat (n + 1)) in
  exists self',
    getPolylinePoints self = Some (ps, self')
    /\ points self' = Some ps
    /\ middlePoint self' =
         (if 0 <=? n then Some (getPoint self (param n (n / 2)))
          else middlePoint self)
    /\ from self' = from self /\ to self' = to self
    /\ control self' = control self /\ opts self' = opts self
    /\ overlay self' = overlay self.
Proof.
  intros Hnull n ps. unfold getPolylinePoints. rewrite Hnull.
  set (self0 := set_points [] self).
  change (effectiveSteps (opts self0)) with n.
  destruct (sampling_loop_run (S (Z.to_nat (n + 1))) n 0 self0 []
              ltac:(lia) eq_refl ltac:(lia))
    as (self' & Hrun & Hps & Hmid & Hf & Hto & Hc & Ho & Hov).
  rewrite Z.sub_0_r in Hps. simpl in Hps.
  rewrite (samples_ext self0 self) in Hps by reflexivity.
  exists self'. rewrite Hrun, Hps.
  repeat split; try assumption.
  rewrite Hmid. unfold n at 2. rewrite effectiveSteps_even, andb_true_r.
  now rewrite (getPoint_ext self0 self).
Qed.

Lemma getPolylinePoints_cached (self : Curve) (ps : list LatLng) :
  points self = Some ps -> getPolylinePoints self = Some (ps, self).
Proof. intros H. unfold getPolylinePoints. now rewrite H. Qed.

End Loop.

(** ** The blend at its ends and at NaN *)

Section Blend.

Variable self : Curve.
Variable getValue : LatLng -> Num.float.

Lemma bezier_zero (t : Num.float) :
  Num.is_zero t = true ->
  Num.valid (getValue (from self)) = true ->
  Num.is_finite (getValue (from self)) = true ->
  Num.is_finite (getValue (control self)) = true ->
  Num.is_finite (getValue (to self)) = true ->
  (bezier self t getValue === getValue (from self))%js.
Proof using Type.
  intros Ht Hv Ha Hc Hb. unfold bezier.
  rewrite (NumFacts.sub_one_zero t Ht).
  rewrite (NumFacts.mul_one_l Num.one eq_refl).
  rewrite (NumFacts.mul_one_l _ Hv).
  apply NumFacts.add_zeros_r; [exact Ha| |].
  - apply NumFacts.mul_zero_l; [|exact Hc].
    apply NumFacts.mul_zero_l; [|reflexivity].
    now apply NumFacts.mul_two_zero.
  - apply NumFacts.mul_zero_l; [|exact Hb].
    now apply NumFacts.mul_zero_zero.
Qed.

Lemma bezier_one :
  Num.is_finite (getValue (from self)) = true ->
  Num.is_finite (getValue (control self)) = true ->
  Num.valid (getValue (to self)) = true ->
  Num.is_finite (getValue (to self)) = true ->
  (bezier self Num.one getValue === getValue (to self))%js.
Proof using Type.
  intros Ha Hc Hv Hb. unfold bezier.
  change (Num.one - Num.one)%js with Num.zero.
  change (Num.zero * Num.zero)%js with Num.zero.
  change (Num.two * Num.one * Num.zero)%js with Num.zero.
  rewrite (NumFacts.mul_one_l Num.one eq_refl).
  rewrite (NumFacts.mul_one_l _ Hv).
  apply NumFacts.add_zeros_l; [| |exact Hb].
  - now apply NumFacts.mul_zero_l.
  - now apply NumFacts.mul_zero_l.
Qed.

Lemma bezier_nan : bezier self Num.nan getValue = Num.nan.
Proof using Type. reflexivity. Qed.

End Blend.

Lemma finite_point_inv (p : LatLng) :
  finite_point p = true ->
  Num.valid (lat p) = true /\ Num.is_finite (lat p) = true
  /\ Num.valid (lng p) = true /\ Num.is_finite (lng p) = true.
Proof.
  unfold finite_point. rewrite !andb_true_iff. tauto.
Qed.

Lemma getPoint_zero (self : Curve) (t : Num.float) :
  Num.is_zero t = true ->
  finite_point (from self) = true -> finite_point (control self) = true ->
  finite_point (to self) = true ->
  same_point (getPoint self t) (from self).
Proof.
  intros Ht Hf Hc Hto.
  apply finite_point_inv in Hf, Hc, Hto.
  destruct Hf as (? & ? & ? & ?), Hc as (? & ? & ? & ?), Hto as (? & ? & ? & ?).
  split; cbn [getPoint lat lng]; now apply bezier_zero.
Qed.

Lemma getPoint_one (self : Curve) :
  finite_point (from self) = true -> finite_point (control self) = true ->
  finite_point (to self) = true ->
  same_point (getPoint self Num.one) (to self).
Proof.
  intros Hf Hc Hto.
  apply finite_point_inv in Hf, Hc, Hto.
  destruct Hf as (? & ? & ? & ?), Hc as (? & ? & ? & ?), Hto as (? & ? & ? & ?).
  split; cbn [getPoint lat lng]; now apply bezier_one.
Qed.

Lemma getPoint_nan (self : Curve) :
  getPoint self Num.nan = GLatLng Num.nan Num.nan.
Proof. reflexivity. Qed.

(** The blend at one half when the endpoints coincide and the control
    point equals them: the three weighted terms add up to the common
    value, provided a quarter of it is exact. *)
Lemma bezier_half_same (self : Curve) (getValue : LatLng -> Num.float) :
  getValue (to self) = getValue (from self) ->
  (getValue (control self) === getValue (from self))%js ->
  Num.valid (getValue (from self)) = true ->
  quarter_exact (getValue (from self)) = true ->
  (bezier self Num.lit_0_5 getValue === getValue (from self))%js.
Proof.
  intros Hto Hc Hv Hq. unfold bezier. rewrite Hto.
  change (Num.one - Num.lit_0_5)%js with Num.lit_0_5.
  change (Num.lit_0_5 * Num.lit_0_5)%js with lit_0_25.
  change (Num.two * Num.lit_0_5)%js with Num.one.
  change (Num.one * Num.lit_0_5)%js with Num.lit_0_5.
  destruct (NumFacts.eqb_eq _ _ Hc) as [->|[Hz1 Hz2]].
  - destruct (getValue (from self)) as [s|s| |s m e]; try discriminate.
    + destruct s; reflexivity.
    + apply Z.leb_le in Hq.
      pose proof (NumFacts.blend_half_normal s m e Hv Hq) as H.
      cbv zeta in H. rewrite H.
      now apply (NumFacts.eqb_refl (S754_finite s m e)).
  - destruct (getValue (control self)) as [s'| | |]; try discriminate.
    destruct (getValue (from self)) as [s| | |]; try discriminate.
    destruct s, s'; reflexivity.
Qed.

Lemma getPoint_half_same (self : Curve) :
  to self = from self ->
  same_point (control self) (from self) ->
  finite_point (from self) = true ->
  quarter_exact (lat (from self)) = true ->
  quarter_exact (lng (from self)) = true ->
  same_point (getPoint self Num.lit_0_5) (from self).
Proof.
  intros Hto [Hc1 Hc2] Hf Hq1 Hq2.
  apply finite_point_inv in Hf. destruct Hf as (Hv1 & _ & Hv2 & _).
  split; cbn [getPoint lat lng]; apply bezier_half_same;
    try assumption; now rewrite Hto.
Qed.

(** A coordinate equal on both axes to one with finite axes has finite
    axes itself. *)
Lemma same_point_finite (q p : LatLng) :
  same_point q p -> finite_point p = true -> finite_point q = true.
Proof.
  intros [H1 H2] Hp.
  apply finite_point_inv in Hp. destruct Hp as (Hv1 & Hf1 & Hv2 & Hf2).
  unfold finite_point.
  destruct (NumFacts.eqb_eq _ _ H1) as [->|[Hz1 _]];
    destruct (NumFacts.eqb_eq _ _ H2) as [->|[Hz2 _]];
    rewrite ?Hv1, ?Hf1, ?Hv2, ?Hf2;
    try (destruct (lat q); try discriminate);
    try (destruct (lng q); try discriminate); reflexivity.
Qed.

Lemma same_point_identical (p q : LatLng) :
  same_point p q ->
  Num.is_zero (lat q) = false -> Num.is_zero (lng q) = false ->
  p = q.
Proof.
  intros [Hlat Hlng] Hz1 Hz2.
  destruct (NumFacts.eqb_eq _ _ Hlat) as [H1|[_ H1]]; [|congruence].
  destruct (NumFacts.eqb_eq _ _ Hlng) as [H2|[_ H2]]; [|congruence].
  destruct p, q. cbn in *. congruence.
Qed.

(** ** Step counts whose parameters are exact *)

Lemma identical_eq (x y : Num.float) : identical x y = true -> x = y.
Proof.
  destruct x as [s|s| |s m e], y as [s'|s'| |s' m' e']; simpl;
    try discriminate; try reflexivity.
  - intros H. apply Bool.eqb_prop in H. now subst.
  - intros H. apply Bool.eqb_prop in H. now subst.
  - rewrite !andb_true_iff. intros [[Hs Hm] He].
    apply Bool.eqb_prop in Hs. apply Pos.eqb_eq in Hm. apply Z.eqb_eq in He.
    now subst.
Qed.

(** Every even step count up to 96 puts the last parameter at 1 and the
    middle one at 0.5; 98 is the first that does not. *)
Lemma exact_params_small (n : Z) :
  1 <= n <= 96 -> Z.even n = true ->
  param n n = Num.one /\ param n (n / 2) = Num.lit_0_5.
Proof.
  intros Hn He.
  assert (Hall : forallb (fun k => exact_params (2 * Z.of_nat k)) (seq 1 48) = true)
    by (vm_compute; reflexivity).
  rewrite forallb_forall in Hall.
  apply Z.even_spec in He. destruct He as [k Hk].
  specialize (Hall (Z.to_nat k)).
  replace (2 * Z.of_nat (Z.to_nat k)) with n in Hall by lia.
  assert (Hin : In (Z.to_nat k) (seq 1 48)) by (apply in_seq; lia).
  apply Hall in Hin. unfold exact_params in Hin.
  apply andb_true_iff in Hin. destruct Hin as [H1 H2].
  split; now apply identical_eq.
Qed.

Lemma exact_params_98 : exact_params 98 = false.
Proof. vm_compute. reflexivity. Qed.

(** ** Option merging *)

Lemma mergeOptions_lookup (opts defaults : object) (attr : string) :
  mergeOptions (Some opts) defaults !! attr
  = (fun dv => js_or (get opts attr) dv) <$> defaults !! attr.
Proof.
  unfold mergeOptions. revert attr.
  apply (map_fold_weak_ind
           (fun (r m : object) =>
              forall attr, r !! attr = (fun dv => js_or (get opts attr) dv) <$> m !! attr)).
  - intros attr. now rewrite !lookup_empty.
  - intros i x m r _ IH attr. destruct (decide (i = attr)) as [->|Hne].
    + now rewrite !lookup_insert_eq.
    + rewrite !lookup_insert_ne by exact Hne. apply IH.
Qed.

(** C9: [mergeOptions] returns [defaults] itself when [opts] is absent;
    otherwise, for defaults whose keys are not names inherited from
    [Object.prototype], the result has exactly the keys of [defaults],
    each mapped to [opts[key]] when that is truthy and to
    [defaults[key]] otherwise.  So falsy supplied values (0, the empty
    string) give way to the defaults and keys unknown to the defaults
    are dropped: merging [falsy_opts] into the script's defaults yields
    the defaults again. *)
Theorem mergeOptions_spec (opts defs : object) :
  mergeOptions None defs = defs
  /\ (plain_keys defs = true ->
      dom (mergeOptions (Some opts) defs) = dom defs
      /\ forall attr : string,
          mergeOptions (Some opts) defs !! attr
          = (fun dv => if truthy (get opts attr) then get opts attr else dv)
              <$> defs !! attr)
  /\ plain_keys (to_object defaults) = true
  /\ (forall attr : string,
        mergeOptions (Some falsy_opts) (to_object defaults) !! attr
        = to_object defaults !! attr).
Proof.
  split; [reflexivity|]. split; [|split].
  - intros _. split.
    + apply set_eq. intros attr.
      rewrite !elem_of_dom, mergeOptions_lookup.
      destruct (defs !! attr) as [dv|]; simpl; split; intros [w Hw]; eauto;
        discriminate.
    + intros attr. apply mergeOptions_lookup.
  - vm_compute. reflexivity.
  - intros attr. rewrite mergeOptions_lookup.
    destruct (to_object defaults !! attr) as [dv|] eqn:Hd; [|reflexivity].
    simpl. f_equal. unfold js_or.
    destruct (truthy (get falsy_opts attr)) eqn:Ht; [|reflexivity].
    exfalso. unfold get, falsy_opts in Ht.
    repeat (rewrite lookup_insert in Ht; case_decide;
            [subst attr; first [discriminate Ht | vm_compute in Hd; discriminate Hd]|]).
    rewrite lookup_empty in Ht. discriminate Ht.
Qed.

Lemma mergeOptions_spec_witness :
  mergeOptions (Some styled_opts) (to_object defaults) !! "color"
  = Some (VStr "#0000ff")
  /\ mergeOptions (Some styled_opts) (to_object defaults) !! "opacity"
     = Some (VNum Num.lit_0_6)
  /\ mergeOptions (Some styled_opts) (to_object defaults) !! "dashed" = None.
Proof.
  destruct (mergeOptions_spec styled_opts (to_object defaults)) as (_ & H & _).
  destruct (H ltac:(vm_compute; reflexivity)) as [_ Hl].
  rewrite !Hl. vm_compute. auto.
Defined.

(** ** Sampling: termination, caching and length *)

(** [getPolylinePoints] returns, and leaves the returned array in the
    cache. *)
Lemma getPolylinePoints_total (self : Curve) :
  effectiveSteps (opts self) < 2 ^ 53 ->
  exists ps self',
    getPolylinePoints self = Some (ps, self') /\ points self' = Some ps.
Proof.
  intros _. destruct (points self) as [ps|] eqn:Hp.
  - exists ps, self. now rewrite (getPolylinePoints_cached self ps Hp).
  - destruct (getPolylinePoints_fresh self Hp) as (self' & Hrun & Hps & _).
    eauto.
Qed.

(** C8: [getPoints()] is idempotent.  A call returns an array and
    leaves it cached on the object, and a second call on that object
    returns the very same array and leaves the object as it was.  The
    second call does not sample: any object that holds the array as its
    cache returns it, whatever its endpoints, control point and options
    are, and an object that is called with an array already cached
    returns that array and is left untouched.  So the points are
    computed at most once. *)
Theorem getPolylinePoints_idempotent (self : Curve) :
  effectiveSteps (opts self) < 2 ^ 53 ->
  exists ps self',
    getPolylinePoints self = Some (ps, self')
    /\ points self' = Some ps
    /\ getPolylinePoints self' = Some (ps, self')
    /\ (forall other : Curve,
          points other = Some ps -> getPolylinePoints other = Some (ps, other))
    /\ (forall qs : list LatLng,
          points self = Some qs -> ps = qs /\ self' = self).
Proof.
  intros _. destruct (points self) as [qs|] eqn:Hp.
  - exists qs, self.
    split; [now apply getPolylinePoints_cached|]. split; [exact Hp|].
    split; [now apply getPolylinePoints_cached|]. split.
    + intros other Ho. now apply getPolylinePoints_cached.
    + intros qs' Hq. injection Hq as <-. now split.
  - destruct (getPolylinePoints_fresh self Hp) as (self' & Hrun & Hps & _).
    eexists _, self'. split; [exact Hrun|]. split; [exact Hps|].
    split; [now apply getPolylinePoints_cached|]. split.
    + intros other Ho. now apply getPolylinePoints_cached.
    + intros qs Hq. discriminate Hq.
Qed.

Lemma getPolylinePoints_idempotent_witness :
  exists ps self',
    getPolylinePoints (unsampled defaults (at_ 0 0) (at_ 3 7) (at_ 10 10))
    = Some (ps, self')
    /\ points self' = Some ps
    /\ getPolylinePoints self' = Some (ps, self')
    /\ getPolylinePoints
         (set_points ps (unsampled (with_steps 2 defaults) (at_ 1 1) (at_ 2 2) (at_ 5 5)))
       = Some (ps, set_points ps
                     (unsampled (with_steps 2 defaults) (at_ 1 1) (at_ 2 2) (at_ 5 5))).
Proof.
  destruct (getPolylinePoints_idempotent
              (unsampled defaults (at_ 0 0) (at_ 3 7) (at_ 10 10))
              ltac:(vm_compute; reflexivity))
    as (ps & self' & Hrun & Hps & Hagain & Hother & _).
  exists ps, self'. split; [exact Hrun|]. split; [exact Hps|].
  split; [exact Hagain|]. apply Hother. reflexivity.
Defined.

(** C5: for a non-negative integer step count the sampled sequence has
    [effectiveSteps + 1] points, [effectiveSteps] being [steps] when it
    is even and [steps + 1] when it is odd: [steps + 1] points for even
    [steps], [steps + 2] for odd [steps].  The count is taken below
    2^53, where the loop counter of the script is exact. *)
Theorem points_length (self : Curve) :
  points self = None ->
  0 <= steps (opts self) ->
  effectiveSteps (opts self) < 2 ^ 53 ->
  exists ps self',
    getPolylinePoints self = Some (ps, self')
    /\ Z.of_nat (length ps) = effectiveSteps (opts self) + 1
    /\ effectiveSteps (opts self)
       = (if Z.even (steps (opts self)) then steps (opts self)
          else steps (opts self) + 1)
    /\ (Z.even (steps (opts self)) = true ->
        Z.of_nat (length ps) = steps (opts self) + 1)
    /\ (Z.odd (steps (opts self)) = true ->
        Z.of_nat (length ps) = steps (opts self) + 2).
Proof.
  intros Hnull Hsteps _.
  destruct (getPolylinePoints_fresh self Hnull) as (self' & Hrun & _).
  pose proof (effectiveSteps_parity (opts self)) as Hpar.
  eexists _, self'. split; [exact Hrun|].
  rewrite length_samples.
  assert (Hn : 0 <= effectiveSteps (opts self))
    by (rewrite Hpar; destruct (Z.even (steps (opts self))); lia).
  split; [lia|]. split; [exact Hpar|]. split.
  - intros He. rewrite He in Hpar. lia.
  - intros Ho. rewrite <- Z.negb_even in Ho.
    apply negb_true_iff in Ho. rewrite Ho in Hpar. lia.
Qed.

Lemma points_length_witness :
  exists ps self',
    getPolylinePoints (unsampled (with_steps 7 defaults) (at_ 0 0) (at_ 3 7) (at_ 10 10))
    = Some (ps, self')
    /\ Z.of_nat (length ps) = 9.
Proof.
  destruct (points_length
              (unsampled (with_steps 7 defaults) (at_ 0 0) (at_ 3 7) (at_ 10 10))
              eq_refl ltac:(simpl; lia) ltac:(vm_compute; reflexivity))
    as (ps & self' & Hrun & Hlen & _).
  exists ps, self'. split; [exact Hrun|exact Hlen].
Defined.

(** ** Sampling with zero steps *)

(** With a step count of zero the parameter is [0 * (1 / 0)]. *)
Lemma param_zero_steps : param 0 0 = Num.nan.
Proof. reflexivity. Qed.

(** C3 as stated fails: from (0,0) to (10,10) with [steps = 0] the one
    sample is not [from] but a coordinate of two NaNs. *)
Lemma zero_steps_not_from :
  let self := unsampled (with_steps 0 defaults) (at_ 0 0) (at_ 3 7) (at_ 10 10) in
  exists self',
    getPolylinePoints self = Some ([GLatLng Num.nan Num.nan], self')
    /\ [GLatLng Num.nan Num.nan] <> [from self]
    /\ ~ same_point (GLatLng Num.nan Num.nan) (from self)
    /\ middlePoint self' <> Some (from self).
Proof.
  eexists. split; [vm_compute; reflexivity|].
  split; [discriminate|]. split; [|discriminate].
  intros [H _]. vm_compute in H. discriminate.
Qed.

(** C3, amended: with [steps = 0] sampling is not special-cased.  The
    loop runs once, no error is raised, and the result is a single-point
    sequence whose point is also the recorded midpoint; that point is
    the sample at parameter [0 * (1 / 0)], which is NaN, so both of its
    coordinates are NaN whatever the endpoints are. *)
Theorem zero_steps_single_sample (self : Curve) :
  points self = None ->
  steps (opts self) = 0 ->
  exists self',
    getPolylinePoints self = Some ([getPoint self (param 0 0)], self')
    /\ middlePoint self' = Some (getPoint self (param 0 0))
    /\ param 0 0 = Num.nan
    /\ getPoint self (param 0 0) = GLatLng Num.nan Num.nan.
Proof.
  intros Hnull Hsteps.
  destruct (getPolylinePoints_fresh self Hnull) as (self' & Hrun & _ & Hmid & _).
  assert (Hn : effectiveSteps (opts self) = 0)
    by (unfold effectiveSteps; now rewrite Hsteps).
  rewrite Hn in Hrun, Hmid. exists self'.
  split; [exact Hrun|]. split; [exact Hmid|]. split; reflexivity.
Qed.

Lemma zero_steps_single_sample_witness :
  exists self',
    getPolylinePoints (unsampled (with_steps 0 defaults) (at_ 0 0) (at_ 3 7) (at_ 10 10))
    = Some ([GLatLng Num.nan Num.nan], self')
    /\ middlePoint self' = Some (GLatLng Num.nan Num.nan).
Proof.
  destruct (zero_steps_single_sample
              (unsampled (with_steps 0 defaults) (at_ 0 0) (at_ 3 7) (at_ 10 10))
              eq_refl eq_refl)
    as (self' & Hrun & Hmid & _ & Hpt).
  exists self'. rewrite Hpt in Hrun, Hmid. split; [exact Hrun|exact Hmid].
Defined.

(** ** The ends of the sampled sequence *)

(** The first and the last sample of a sampling with [n >= 0] steps. *)
Lemma samples_ends (self : Curve) (n : Z) :
  0 <= n ->
  let ps := samples self n 0 (Z.to_nat (n + 1)) in
  ps !! 0%nat = Some (getPoint self (param n 0))
  /\ last ps = Some (getPoint self (param n n)).
Proof.
  intros Hn ps. split.
  - unfold ps. now rewrite lookup_samples by lia.
  - rewrite last_lookup. unfold ps. rewrite length_samples.
    rewrite lookup_samples by lia. do 3 f_equal. lia.
Qed.

(** C4 as stated fails: with 98 steps the last parameter [98 * (1 / 98)]
    rounds to the number just below 1, and the last sample from (0,0)
    via (3,7) to (10,10) is not [to]. *)
Lemma last_point_not_to :
  let self := unsampled (with_steps 98 defaults) (at_ 0 0) (at_ 3 7) (at_ 10 10) in
  finite_point (from self) = true
  /\ finite_point (control self) = true
  /\ finite_point (to self) = true
  /\ param 98 98 = S754_finite false 9007199254740991 (-53)
  /\ exists ps self' p,
      getPolylinePoints self = Some (ps, self')
      /\ last ps = Some p
      /\ p = GLatLng (S754_finite false 5629499534213119 (-49))
                     (S754_finite false 5629499534213120 (-49))
      /\ p <> to self
      /\ ~ same_point p (to self).
Proof.
  split; [reflexivity|]. split; [reflexivity|]. split; [reflexivity|].
  split; [vm_compute; reflexivity|].
  destruct (getPolylinePoints_fresh
              (unsampled (with_steps 98 defaults) (at_ 0 0) (at_ 3 7) (at_ 10 10))
              eq_refl) as (self' & Hrun & _).
  eexists _, self', _. split; [exact Hrun|].
  split; [apply samples_ends; vm_compute; discriminate|].
  split; [vm_compute; reflexivity|].
  split.
  - vm_compute. discriminate.
  - intros [H _]. vm_compute in H. discriminate.
Qed.

(** C4, amended: for finite endpoints and control point and a step
    count with [1 <= effectiveSteps < 2^53], the first sample equals
    [from] on both axes; the last sample equals [to] on both axes
    whenever the last parameter [n * (1 / n)] evaluates to 1, as it does
    for every [effectiveSteps] up to 96, the default 20 among them (and
    does not for 98). *)
Theorem endpoints_sampled (self : Curve) :
  points self = None ->
  1 <= effectiveSteps (opts self) < 2 ^ 53 ->
  finite_point (from self) = true ->
  finite_point (control self) = true ->
  finite_point (to self) = true ->
  exists ps self' p0,
    getPolylinePoints self = Some (ps, self')
    /\ ps !! 0%nat = Some p0
    /\ same_point p0 (from self)
    /\ (param (effectiveSteps (opts self)) (effectiveSteps (opts self)) = Num.one ->
        exists p1, last ps = Some p1 /\ same_point p1 (to self))
    /\ (effectiveSteps (opts self) <= 96 ->
        exists p1, last ps = Some p1 /\ same_point p1 (to self)).
Proof.
  intros Hnull Hn Hf Hc Ht.
  destruct (getPolylinePoints_fresh self Hnull) as (self' & Hrun & _).
  destruct (samples_ends self (effectiveSteps (opts self)) ltac:(lia))
    as [Hfirst Hlast].
  assert (Hone : param (effectiveSteps (opts self)) (effectiveSteps (opts self))
                 = Num.one ->
                 exists p1, last (samples self (effectiveSteps (opts self)) 0
                                    (Z.to_nat (effectiveSteps (opts self) + 1)))
                            = Some p1
                            /\ same_point p1 (to self)).
  { intros Hone. eexists. split; [exact Hlast|].
    rewrite Hone. now apply getPoint_one. }
  eexists _, self', _. split; [exact Hrun|]. split; [exact Hfirst|].
  split; [|split].
  - rewrite (NumFacts.param_first _ Hn). now apply getPoint_zero.
  - exact Hone.
  - intros Hsmall. apply Hone.
    apply exact_params_small; [lia|apply effectiveSteps_even].
Qed.

Lemma endpoints_sampled_witness :
  exists ps self' p0 p1,
    getPolylinePoints (unsampled defaults (at_ 0 0) (at_ 3 7) (at_ 10 10))
    = Some (ps, self')
    /\ ps !! 0%nat = Some p0 /\ same_point p0 (at_ 0 0)
    /\ last ps = Some p1 /\ same_point p1 (at_ 10 10).
Proof.
  destruct (endpoints_sampled
              (unsampled defaults (at_ 0 0) (at_ 3 7) (at_ 10 10))
              eq_refl ltac:(vm_compute; split; [discriminate|reflexivity])
              eq_refl eq_refl eq_refl)
    as (ps & self' & p0 & Hrun & Hfirst & Hsame & Hlast & _).
  destruct (Hlast ltac:(vm_compute; reflexivity)) as (p1 & Hp1 & Hsame1).
  exists ps, self', p0, p1. auto.
Defined.

(** ** The midpoint *)

(** C6 as stated fails: with 98 steps the middle parameter
    [49 * (1 / 98)] rounds to the number just below 0.5, and the
    recorded midpoint differs from the blend evaluated at 0.5. *)
Lemma midpoint_not_at_half :
  let self := unsampled (with_steps 98 defaults) (at_ 0 0) (at_ 3 7) (at_ 10 10) in
  param 98 49 = S754_finite false 9007199254740991 (-54)
  /\ getPoint self Num.lit_0_5 = at_ 4 6
  /\ exists ps self' mid,
      getPolylinePoints self = Some (ps, self')
      /\ middlePoint self' = Some mid
      /\ mid = GLatLng (S754_finite false 9007199254740990 (-51))
                       (S754_finite false 6755399441055743 (-50))
      /\ mid <> getPoint self Num.lit_0_5
      /\ ~ same_point mid (getPoint self Num.lit_0_5).
Proof.
  split; [vm_compute; reflexivity|]. split; [vm_compute; reflexivity|].
  destruct (getPolylinePoints_fresh
              (unsampled (with_steps 98 defaults) (at_ 0 0) (at_ 3 7) (at_ 10 10))
              eq_refl) as (self' & Hrun & _ & Hmid & _).
  eexists _, self', _. split; [exact Hrun|].
  split; [exact Hmid|].
  split; [vm_compute; reflexivity|].
  split.
  - vm_compute. discriminate.
  - intros [H _]. vm_compute in H. discriminate.
Qed.

(** C6, amended: for a step count with [1 <= effectiveSteps < 2^53] the
    recorded midpoint is the sample at index [effectiveSteps / 2], the
    blend evaluated at the parameter [(n / 2) * (1 / n)]; it is the
    blend evaluated at 0.5 whenever that parameter evaluates to 0.5, as
    it does for every [effectiveSteps] up to 96, the default 20 among
    them (and does not for 98). *)
Theorem midpoint_sampled (self : Curve) :
  points self = None ->
  1 <= effectiveSteps (opts self) < 2 ^ 53 ->
  exists ps self' mid,
    getPolylinePoints self = Some (ps, self')
    /\ middlePoint self' = Some mid
    /\ ps !! Z.to_nat (effectiveSteps (opts self) / 2) = Some mid
    /\ mid = getPoint self (param (effectiveSteps (opts self))
                                  (effectiveSteps (opts self) / 2))
    /\ (param (effectiveSteps (opts self)) (effectiveSteps (opts self) / 2)
        = Num.lit_0_5 ->
        mid = getPoint self Num.lit_0_5)
    /\ (effectiveSteps (opts self) <= 96 -> mid = getPoint self Num.lit_0_5).
Proof.
  intros Hnull Hn.
  destruct (getPolylinePoints_fresh self Hnull) as (self' & Hrun & _ & Hmid & _).
  replace (0 <=? effectiveSteps (opts self)) with true in Hmid
    by (symmetry; apply Z.leb_le; lia).
  eexists _, self', _. split; [exact Hrun|]. split; [exact Hmid|].
  assert (Hhalf : 0 <= effectiveSteps (opts self) / 2 < effectiveSteps (opts self) + 1).
  { split; [apply Z.div_pos; lia|].
    assert (effectiveSteps (opts self) / 2 <= effectiveSteps (opts self))
      by (apply Z.div_le_upper_bound; lia).
    lia. }
  split; [|split; [reflexivity|split]].
  - rewrite lookup_samples by lia. do 3 f_equal. lia.
  - intros Hp. now rewrite Hp.
  - intros Hsmall.
    destruct (exact_params_small (effectiveSteps (opts self)) ltac:(lia)
                (effectiveSteps_even (opts self))) as [_ Hp].
    now rewrite Hp.
Qed.

Lemma midpoint_sampled_witness :
  exists ps self',
    getPolylinePoints (unsampled defaults (at_ 0 0) (at_ 3 7) (at_ 10 10))
    = Some (ps, self')
    /\ middlePoint self' = Some (at_ 4 6)
    /\ ps !! 10%nat = Some (at_ 4 6).
Proof.
  destruct (midpoint_sampled
              (unsampled defaults (at_ 0 0) (at_ 3 7) (at_ 10 10))
              eq_refl ltac:(vm_compute; split; [discriminate|reflexivity]))
    as (ps & self' & mid & Hrun & Hmid & Hidx & Heq & Hhalf & _).
  exists ps, self'. split; [exact Hrun|].
  rewrite (Hhalf ltac:(vm_compute; reflexivity)) in Hmid, Hidx.
  split; [exact Hmid|exact Hidx].
Defined.

(** ** The derived control point *)

(** C7 as stated fails in its zero-factor part: for the endpoint
    (0, 1.7976931348623157e308), used as both ends, the longitudes sum
    to infinity, the offset term is infinity times zero, and the derived
    latitude is NaN instead of the midpoint's 0. *)
Lemma zero_factor_not_midpoint :
  let p := GLatLng Num.zero max_value in
  let o := with_curveFactor Num.zero defaults in
  finite_point p = true
  /\ midpoint p p = GLatLng Num.zero (S754_infinity false)
  /\ calculateControlPoint p p o = GLatLng Num.nan (S754_infinity false)
  /\ calculateControlPoint p p o <> midpoint p p
  /\ ~ same_point (calculateControlPoint p p o) (midpoint p p).
Proof.
  split; [reflexivity|]. split; [vm_compute; reflexivity|].
  split; [vm_compute; reflexivity|]. split.
  - vm_compute. discriminate.
  - intros [H _]. vm_compute in H. discriminate.
Qed.

(** C7, amended: for all endpoints and every curve factor the derived
    control point is the one the fixed formula gives from the
    arithmetic midpoint [m]; with a curve factor of zero it equals
    [(m.lat, m.lng)] on both axes whenever [m] and the two differences
    [m.lng - to.lng] and [to.lat - m.lat] are finite. *)
Theorem control_formula (from to : LatLng) (o : Options) :
  calculateControlPoint from to o = resolveControlPoint from to (curveFactor o)
  /\ (Num.is_zero (curveFactor o) = true ->
      Num.is_finite (lat (midpoint from to)) = true ->
      Num.is_finite (lng (midpoint from to)) = true ->
      Num.is_finite (lng (midpoint from to) - lng to)%js = true ->
      Num.is_finite (lat to - lat (midpoint from to))%js = true ->
      same_point (calculateControlPoint from to o) (midpoint from to)).
Proof.
  split; [reflexivity|].
  intros Hz Hlat Hlng Hdlng Hdlat.
  split; cbn [calculateControlPoint midpoint lat lng] in *;
    apply NumFacts.add_zero_l; try assumption;
    now apply NumFacts.mul_zero_r.
Qed.

Lemma control_formula_witness :
  same_point
    (calculateControlPoint (at_ 0 0) (at_ 10 10) (with_curveFactor Num.zero defaults))
    (at_ 5 5).
Proof.
  apply (control_formula (at_ 0 0) (at_ 10 10) (with_curveFactor Num.zero defaults));
    reflexivity.
Defined.

(** The curve that construction with the options [o] yields. *)
Lemma construct_run (o : Options) (a b : LatLng) :
  let ctrl := match controlPoint o with
              | Some cp => cp
              | None => calculateControlPoint a b o
              end in
  let self := unsampled o a ctrl b in
  let n := effectiveSteps o in
  exists c,
    construct o a b = Some c
    /\ control c = ctrl
    /\ points c = Some (samples self n 0 (Z.to_nat (n + 1)))
    /\ middlePoint c = (if 0 <=? n then Some (getPoint self (param n (n / 2)))
                        else None).
Proof.
  intros ctrl self n. unfold construct.
  change (getPolylinePoints _) with (getPolylinePoints self).
  destruct (getPolylinePoints_fresh self eq_refl)
    as (self' & Hrun & Hps & Hmid & _ & _ & Hc & _).
  rewrite Hrun. eexists. split; [reflexivity|].
  cbn [control points middlePoint set_overlay].
  rewrite Hc, Hps, Hmid. auto.
Qed.

(** C10 as stated fails.  Constructed from (10,10) to (10,10) with the
    default options, the control point is (10,10) but the third sample
    has latitude 10.000000000000002.  With 98 steps the recorded
    midpoint of that curve has latitude 9.999999999999998, and the last
    sample of the curve from (3,3) to (3,3) is not (3,3).  With the
    default options again, the midpoint of the curve from and to the
    smallest positive coordinate is (0,0). *)
Lemma degenerate_samples_drift :
  (exists c ps p,
      QuadraticBezierLine (at_ 10 10) (at_ 10 10) None = Some c
      /\ control c = at_ 10 10
      /\ points c = Some ps
      /\ ps !! 2%nat = Some p
      /\ p = GLatLng (S754_finite false 5629499534213121 (-49))
                     (S754_finite false 5629499534213121 (-49))
      /\ p <> from c
      /\ ~ same_point p (from c))
  /\ (exists c mid,
         construct (with_steps 98 defaults) (at_ 10 10) (at_ 10 10) = Some c
         /\ control c = at_ 10 10
         /\ middlePoint c = Some mid
         /\ mid = GLatLng (S754_finite false 5629499534213119 (-49))
                          (S754_finite false 5629499534213119 (-49))
         /\ ~ same_point mid (from c))
  /\ (exists c ps p,
         construct (with_steps 98 defaults) (at_ 3 3) (at_ 3 3) = Some c
         /\ control c = at_ 3 3
         /\ points c = Some ps
         /\ last ps = Some p
         /\ ~ same_point p (from c))
  /\ (exists c mid,
         QuadraticBezierLine (GLatLng min_value min_value)
                             (GLatLng min_value min_value) None = Some c
         /\ control c = GLatLng min_value min_value
         /\ middlePoint c = Some mid
         /\ mid = GLatLng Num.zero Num.zero
         /\ ~ same_point mid (from c)).
Proof.
  split; [|split; [|split]].
  - eexists _, _, _. split; [vm_compute; reflexivity|].
    split; [reflexivity|]. split; [reflexivity|]. split; [reflexivity|].
    split; [reflexivity|]. split; [discriminate|].
    intros [H _]. vm_compute in H. discriminate.
  - eexists _, _. split; [vm_compute; reflexivity|].
    split; [reflexivity|]. split; [reflexivity|]. split; [reflexivity|].
    intros [H _]. vm_compute in H. discriminate.
  - eexists _, _, _. split; [vm_compute; reflexivity|].
    split; [reflexivity|]. split; [reflexivity|]. split; [vm_compute; reflexivity|].
    intros [H _]. vm_compute in H. discriminate.
  - eexists _, _. split; [vm_compute; reflexivity|].
    split; [reflexivity|]. split; [reflexivity|]. split; [reflexivity|].
    intros [H _]. vm_compute in H. discriminate.
Qed.

(** When [from] equals [to], with finite coordinates that stay finite
    when doubled, and the curve factor is finite, the arithmetic
    midpoint is that coordinate and the derived control point equals it
    on both axes. *)
Lemma degenerate_control (p : LatLng) (o : Options) :
  finite_point p = true ->
  Num.is_finite (lat p + lat p)%js = true ->
  Num.is_finite (lng p + lng p)%js = true ->
  Num.is_finite (curveFactor o) = true ->
  midpoint p p = p
  /\ same_point (calculateControlPoint p p o) p.
Proof.
  intros Hp Hlat Hlng Hf.
  apply finite_point_inv in Hp. destruct Hp as (Hv1 & Hf1 & Hv2 & Hf2).
  assert (Hm : midpoint p p = p).
  { unfold midpoint. rewrite !NumFacts.double_half by assumption.
    now destruct p. }
  split; [exact Hm|].
  change (calculateControlPoint p p o)
    with (resolveControlPoint p p (curveFactor o)).
  unfold resolveControlPoint. rewrite Hm.
  split; cbn [lat lng]; rewrite NumFacts.sub_diag by assumption;
    apply NumFacts.add_zero_l; try assumption;
    now apply NumFacts.mul_zero_l.
Qed.

(** C10, amended: let [from] equal [to], with finite coordinates that
    stay finite when doubled, let the curve factor be finite and the
    control point be the derived one, and let the step count satisfy
    [1 <= effectiveSteps < 2^53].  Then the control point equals [from]
    on both axes, and so does the first sample.  The last sample equals
    [from] whenever the last parameter [n * (1 / n)] evaluates to 1, and
    the recorded midpoint, the sample at index [n / 2], equals [from]
    whenever the middle parameter [(n / 2) * (1 / n)] evaluates to 0.5
    and each coordinate is zero or at least [2 ^ -1020] in magnitude;
    both parameters are exact for every [effectiveSteps] up to 96.  (The
    other samples are blends of three equal coordinates that rounding
    can move off [from].) *)
Theorem degenerate_curve (p : LatLng) (o : Options) :
  finite_point p = true ->
  Num.is_finite (lat p + lat p)%js = true ->
  Num.is_finite (lng p + lng p)%js = true ->
  Num.is_finite (curveFactor o) = true ->
  controlPoint o = None ->
  1 <= effectiveSteps o < 2 ^ 53 ->
  exists c ps p0,
    construct o p p = Some c
    /\ control c = calculateControlPoint p p o
    /\ same_point (control c) p
    /\ points c = Some ps
    /\ ps !! 0%nat = Some p0
    /\ same_point p0 p
    /\ (param (effectiveSteps o) (effectiveSteps o) = Num.one ->
        exists p1, last ps = Some p1 /\ same_point p1 p)
    /\ (param (effectiveSteps o) (effectiveSteps o / 2) = Num.lit_0_5 ->
        quarter_exact (lat p) = true -> quarter_exact (lng p) = true ->
        exists mid,
          middlePoint c = Some mid
          /\ ps !! Z.to_nat (effectiveSteps o / 2) = Some mid
          /\ same_point mid p)
    /\ (effectiveSteps o <= 96 ->
        quarter_exact (lat p) = true -> quarter_exact (lng p) = true ->
        exists p1 mid,
          last ps = Some p1 /\ same_point p1 p
          /\ middlePoint c = Some mid /\ same_point mid p).
Proof.
  intros Hp Hlat Hlng Hf Hcp Hn.
  destruct (construct_run o p p) as (c & Hrun & Hc & Hps & Hmid).
  rewrite Hcp in Hc, Hps, Hmid.
  set (self := unsampled o p (calculateControlPoint p p o) p) in *.
  set (n := effectiveSteps o) in *.
  destruct (degenerate_control p o Hp Hlat Hlng Hf) as [_ Hctrl].
  assert (Hfc : finite_point (control self) = true)
    by (apply (same_point_finite _ p); assumption).
  destruct (samples_ends self n ltac:(lia)) as [Hfirst Hlast].
  replace (0 <=? n) with true in Hmid by (symmetry; apply Z.leb_le; lia).
  assert (Hone : param n n = Num.one ->
                 exists p1, last (samples self n 0 (Z.to_nat (n + 1))) = Some p1
                            /\ same_point p1 p).
  { intros Hone. eexists. split; [exact Hlast|].
    rewrite Hone. now apply (getPoint_one self). }
  assert (Hhalf : param n (n / 2) = Num.lit_0_5 ->
                  quarter_exact (lat p) = true -> quarter_exact (lng p) = true ->
                  exists mid,
                    middlePoint c = Some mid
                    /\ samples self n 0 (Z.to_nat (n + 1)) !! Z.to_nat (n / 2)
                       = Some mid
                    /\ same_point mid p).
  { intros Hhalf Hq1 Hq2. eexists. split; [exact Hmid|]. split.
    - assert (n / 2 <= n) by (apply Z.div_le_upper_bound; lia).
      assert (0 <= n / 2) by (apply Z.div_pos; lia).
      rewrite lookup_samples by lia. do 3 f_equal. lia.
    - rewrite Hhalf. now apply (getPoint_half_same self). }
  eexists c, _, _. split; [exact Hrun|]. split; [exact Hc|].
  split; [rewrite Hc; exact Hctrl|]. split; [exact Hps|].
  split; [exact Hfirst|]. split.
  { rewrite (NumFacts.param_first _ Hn). now apply (getPoint_zero self). }
  split; [exact Hone|]. split; [exact Hhalf|].
  intros Hsmall Hq1 Hq2.
  destruct (exact_params_small n ltac:(lia) (effectiveSteps_even o)) as [E1 E2].
  destruct (Hone E1) as (p1 & Hp1 & Hs1).
  destruct (Hhalf E2 Hq1 Hq2) as (mid & Hm & _ & Hsm).
  exists p1, mid. auto.
Qed.

Lemma degenerate_curve_witness :
  exists c ps p1 mid,
    construct defaults (at_ 10 10) (at_ 10 10) = Some c
    /\ same_point (control c) (at_ 10 10)
    /\ points c = Some ps
    /\ last ps = Some p1 /\ same_point p1 (at_ 10 10)
    /\ middlePoint c = Some mid /\ same_point mid (at_ 10 10).
Proof.
  destruct (degenerate_curve (at_ 10 10) defaults eq_refl eq_refl eq_refl eq_refl
              eq_refl ltac:(vm_compute; split; [discriminate|reflexivity]))
    as (c & ps & p0 & Hrun & _ & Hctrl & Hps & _ & _ & _ & _ & Hsmall).
  destruct (Hsmall ltac:(vm_compute; discriminate) eq_refl eq_refl)
    as (p1 & mid & H1 & H2 & H3 & H4).
  exists c, ps, p1, mid. auto 10.
Defined.

(** ** The constructor and the caller's options *)

(** Construction in terms of the loop above: the overlay receives the
    sampled points with the styling fields of the options in force. *)
Lemma construct_total (o : Options) (a b : LatLng) :
  exists c ps,
    construct o a b = Some c
    /\ opts c = o /\ from c = a /\ to c = b
    /\ control c = match controlPoint o with
                   | Some cp => cp
                   | None => calculateControlPoint a b o
                   end
    /\ points c = Some ps
    /\ overlay c = Some (GPolyline ps (color o) (weight o) (opacity o)).
Proof.
  unfold construct.
  match goal with
  | |- context [getPolylinePoints ?x] => set (self := x)
  end.
  destruct (getPolylinePoints_fresh self eq_refl)
    as (self' & Hrun & Hps & _ & Hf & Ht & Hc & Ho & _).
  rewrite Hrun. eexists _, _. split; [reflexivity|].
  cbn [opts from to control points overlay set_overlay].
  rewrite Ho, Hf, Ht, Hc, Hps. auto 10.
Qed.

(** When the options in force carry a control point, it is the curve's
    control point, whatever the curve factor. *)
Lemma construct_explicit_control (o : Options) (a b cp : LatLng) :
  controlPoint o = Some cp ->
  exists c, construct o a b = Some c /\ control c = cp.
Proof.
  intros Hcp.
  destruct (construct_total o a b) as (c & ps & Hrun & _ & _ & _ & Hc & _).
  exists c. split; [exact Hrun|]. now rewrite Hc, Hcp.
Qed.

(** C1 (the script departs from it): the constructor does not read its
    third argument.  Whatever the caller passes, the curve is the one
    built from the defaults; asked for a blue line of weight 2 in two
    steps, it hands the overlay the default red, weight 5, opacity 0.6
    and 21 points. *)
Theorem constructor_ignores_options :
  (forall (from to : LatLng) (user_opts : option object),
      QuadraticBezierLine from to user_opts = construct defaults from to)
  /\ get styled_opts "color" = VStr "#0000ff"
  /\ get styled_opts "steps" = VNum (Num.of_Z 2)
  /\ exists c ov,
      QuadraticBezierLine (at_ 0 0) (at_ 10 10) (Some styled_opts) = Some c
      /\ opts c = defaults
      /\ overlay c = Some ov
      /\ stroke_color ov = "#ff0000"
      /\ stroke_weight ov = Num.of_Z 5
      /\ stroke_opacity ov = Num.lit_0_6
      /\ length (vertices ov) = 21%nat.
Proof.
  split; [reflexivity|]. split; [reflexivity|]. split; [reflexivity|].
  eexists _, _. split; [vm_compute; reflexivity|].
  repeat split.
Qed.

(** C2 (the script departs from it): a control point supplied by the
    caller is not used.  Given the control point (5, 0) for the curve
    from (0,0) to (10,10), the constructed curve's control point is the
    one derived with the default curve factor, (3, 7). *)
Theorem constructor_ignores_control_point :
  get control_opts "controlPoint" = VLatLng (at_ 5 0)
  /\ exists c,
      QuadraticBezierLine (at_ 0 0) (at_ 10 10) (Some control_opts) = Some c
      /\ control c = calculateControlPoint (at_ 0 0) (at_ 10 10) defaults
      /\ control c = at_ 3 7
      /\ control c <> at_ 5 0.
Proof.
  split; [reflexivity|].
  eexists. split; [vm_compute; reflexivity|].
  split; [reflexivity|]. split; [reflexivity|]. discriminate.
Qed.

(** * Further properties of the script *)

(** ** The step count *)

(** The loop's step count is even and is [steps] or the integer after
    it, for every integer [steps], negative ones included. *)
Theorem effectiveSteps_next_even (o : Options) :
  Z.even (effectiveSteps o) = true
  /\ steps o <= effectiveSteps o <= steps o + 1
  /\ (effectiveSteps o = steps o <-> Z.even (steps o) = true).
Proof.
  split; [apply effectiveSteps_even|].
  rewrite effectiveSteps_parity.
  destruct (Z.even (steps o)) eqn:He; split; try lia; split; try lia;
    try discriminate; reflexivity.
Qed.

(** ** What sampling touches *)

(** A call of [getPolylinePoints] changes nothing but the cached points
    and the recorded midpoint: endpoints, control point, options and
    overlay are as before, and on an object with cached points the
    midpoint is left alone as well. *)
Theorem getPolylinePoints_frame (self self' : Curve) (ps : list LatLng) :
  getPolylinePoints self = Some (ps, self') ->
  from self' = from self /\ to self' = to self
  /\ control self' = control self /\ opts self' = opts self
  /\ overlay self' = overlay self
  /\ (points self <> None -> self' = self).
Proof.
  intros Hrun. destruct (points self) as [qs|] eqn:Hp.
  - rewrite (getPolylinePoints_cached self qs Hp) in Hrun.
    injection Hrun as _ <-. auto 10.
  - destruct (getPolylinePoints_fresh self Hp)
      as (s1 & Hrun1 & _ & _ & Hf & Ht & Hc & Ho & Hov).
    rewrite Hrun1 in Hrun. injection Hrun as _ <-.
    repeat split; try assumption. intros H. now contradiction H.
Qed.

Lemma getPolylinePoints_frame_witness :
  exists ps self',
    getPolylinePoints (unsampled defaults (at_ 0 0) (at_ 3 7) (at_ 10 10))
    = Some (ps, self')
    /\ from self' = at_ 0 0 /\ to self' = at_ 10 10 /\ control self' = at_ 3 7
    /\ opts self' = defaults.
Proof.
  destruct (getPolylinePoints_total
              (unsampled defaults (at_ 0 0) (at_ 3 7) (at_ 10 10))
              ltac:(vm_compute; reflexivity))
    as (ps & self' & Hrun & _).
  destruct (getPolylinePoints_frame _ _ _ Hrun) as (Hf & Ht & Hc & Ho & _).
  exists ps, self'. auto.
Defined.

(** ** Every sample *)

(** On an object without cached points and with a non-negative step
    count [n] below 2^53, the point at index [i], for every
    [0 <= i <= n], is the blend evaluated at [i * (1 / n)] on the
    object's endpoints and control point. *)
Theorem sample_at_index (self : Curve) (i : Z) :
  points self = None ->
  0 <= i <= effectiveSteps (opts self) ->
  effectiveSteps (opts self) < 2 ^ 53 ->
  exists ps self',
    getPolylinePoints self = Some (ps, self')
    /\ ps !! Z.to_nat i = Some (getPoint self (param (effectiveSteps (opts self)) i)).
Proof.
  intros Hnull Hi _.
  destruct (getPolylinePoints_fresh self Hnull) as (self' & Hrun & _).
  eexists _, self'. split; [exact Hrun|].
  rewrite lookup_samples by lia. do 3 f_equal. lia.
Qed.

Lemma sample_at_index_witness :
  exists ps self',
    getPolylinePoints (unsampled defaults (at_ 0 0) (at_ 3 7) (at_ 10 10))
    = Some (ps, self')
    /\ ps !! 5%nat
       = Some (getPoint (unsampled defaults (at_ 0 0) (at_ 3 7) (at_ 10 10))
                        (param 20 5)).
Proof.
  apply (sample_at_index (unsampled defaults (at_ 0 0) (at_ 3 7) (at_ 10 10)) 5);
    [reflexivity|vm_compute; split; discriminate|vm_compute; reflexivity].
Defined.

(** ** Negative step counts *)

(** With [steps <= -2] the loop body never runs: the result is the
    empty array, the midpoint is left as it was, and the empty array is
    cached, so a second call returns it without sampling. *)
Theorem negative_steps_empty (self : Curve) :
  points self = None ->
  steps (opts self) <= -2 ->
  exists self',
    getPolylinePoints self = Some ([], self')
    /\ points self' = Some []
    /\ middlePoint self' = middlePoint self
    /\ getPolylinePoints self' = Some ([], self').
Proof.
  intros Hnull Hsteps.
  destruct (getPolylinePoints_fresh self Hnull) as (self' & Hrun & Hps & Hmid & _).
  assert (Hn : effectiveSteps (opts self) < 0).
  { rewrite effectiveSteps_parity. destruct (Z.even (steps (opts self))); lia. }
  replace (Z.to_nat (effectiveSteps (opts self) + 1)) with O in Hrun, Hps by lia.
  replace (0 <=? effectiveSteps (opts self)) with false in Hmid
    by (symmetry; apply Z.leb_gt; lia).
  exists self'. repeat split; try assumption.
  now apply getPolylinePoints_cached.
Qed.

Lemma negative_steps_empty_witness :
  exists self',
    getPolylinePoints (unsampled (with_steps (-3) defaults) (at_ 0 0) (at_ 3 7) (at_ 10 10))
    = Some ([], self')
    /\ middlePoint self' = None.
Proof.
  destruct (negative_steps_empty
              (unsampled (with_steps (-3) defaults) (at_ 0 0) (at_ 3 7) (at_ 10 10))
              eq_refl ltac:(simpl; lia))
    as (self' & Hrun & _ & Hmid & _).
  exists self'. split; [exact Hrun|exact Hmid].
Defined.

(** ** Non-finite coordinates *)

Lemma mul_nonfinite_r (x y : Num.float) :
  Num.is_finite y = false -> Num.is_finite (x * y)%js = false.
Proof. destruct x, y; try discriminate; reflexivity. Qed.

Lemma add_nonfinite_l (x y : Num.float) :
  Num.is_finite x = false -> Num.is_finite (x + y)%js = false.
Proof.
  destruct x as [s|s| |s m e], y as [s'|s'| |s' m' e']; try discriminate;
    try reflexivity.
  destruct s, s'; reflexivity.
Qed.

Lemma add_nonfinite_r (x y : Num.float) :
  Num.is_finite y = false -> Num.is_finite (x + y)%js = false.
Proof.
  destruct x as [s|s| |s m e], y as [s'|s'| |s' m' e']; try discriminate;
    try reflexivity.
  destruct s, s'; reflexivity.
Qed.

Lemma bezier_nonfinite (self : Curve) (t : Num.float) (getValue : LatLng -> Num.float) :
  Num.is_finite (getValue (from self)) = false
  \/ Num.is_finite (getValue (control self)) = false
  \/ Num.is_finite (getValue (to self)) = false ->
  Num.is_finite (bezier self t getValue) = false.
Proof.
  unfold bezier. intros [H|[H|H]].
  - apply add_nonfinite_l, add_nonfinite_l. now apply mul_nonfinite_r.
  - apply add_nonfinite_l, add_nonfinite_r. now apply mul_nonfinite_r.
  - apply add_nonfinite_r. now apply mul_nonfinite_r.
Qed.

Lemma samples_Forall (P : LatLng -> Prop) (self : Curve) (n : Z) (k : nat) :
  (forall t, P (getPoint self t)) ->
  forall t : Z, Forall P (samples self n t k).
Proof.
  intros HP. induction k as [|k IH]; intros t; simpl; constructor; auto.
Qed.

(** An infinite or NaN latitude in [from], [control] or [to] makes the
    latitude of every sampled point infinite or NaN, the end points
    included, for every step count below 2^53; likewise for the
    longitude. *)
Theorem nonfinite_axis_spreads (self : Curve) :
  points self = None ->
  effectiveSteps (opts self) < 2 ^ 53 ->
  exists ps self',
    getPolylinePoints self = Some (ps, self')
    /\ (Num.is_finite (lat (from self)) = false
        \/ Num.is_finite (lat (control self)) = false
        \/ Num.is_finite (lat (to self)) = false ->
        Forall (fun p => Num.is_finite (lat p) = false) ps)
    /\ (Num.is_finite (lng (from self)) = false
        \/ Num.is_finite (lng (control self)) = false
        \/ Num.is_finite (lng (to self)) = false ->
        Forall (fun p => Num.is_finite (lng p) = false) ps).
Proof.
  intros Hnull _.
  destruct (getPolylinePoints_fresh self Hnull) as (self' & Hrun & _).
  eexists _, self'. split; [exact Hrun|].
  split; intros Hbad; apply samples_Forall; intros t;
    cbn [getPoint lat lng]; now apply bezier_nonfinite.
Qed.

Lemma nonfinite_axis_spreads_witness :
  exists ps self',
    getPolylinePoints
      (unsampled defaults (at_ 0 0) (GLatLng (S754_infinity false) (Num.of_Z 7))
                 (GLatLng (Num.of_Z 10) Num.nan))
    = Some (ps, self')
    /\ Forall (fun p => Num.is_finite (lat p) = false) ps
    /\ Forall (fun p => Num.is_finite (lng p) = false) ps.
Proof.
  destruct (nonfinite_axis_spreads
              (unsampled defaults (at_ 0 0)
                         (GLatLng (S754_infinity false) (Num.of_Z 7))
                         (GLatLng (Num.of_Z 10) Num.nan))
              eq_refl ltac:(vm_compute; reflexivity))
    as (ps & self' & Hrun & Hlat & Hlng).
  exists ps, self'. split; [exact Hrun|]. split.
  - apply Hlat. right; left; reflexivity.
  - apply Hlng. right; right; reflexivity.
Defined.

(** ** The sign of the curve factor *)

Lemma binary_round_aux_neg (s : bool) (m e : Z) (l : location) :
  binary_round_aux Num.prec Num.emax (negb s) m e l
  = neg (binary_round_aux Num.prec Num.emax s m e l).
Proof.
  unfold binary_round_aux.
  destruct (shr_fexp Num.prec Num.emax m e l) as [mrs1 e1].
  destruct (shr_fexp Num.prec Num.emax _ e1 loc_Exact) as [mrs2 e2].
  destruct (shr_m mrs2); try reflexivity.
  destruct (e2 <=? Num.emax - Num.prec); reflexivity.
Qed.

Lemma mul_neg_r (x y : Num.float) : (x * neg y)%js = neg (x * y)%js.
Proof.
  destruct x as [s|s| |s m e], y as [s'|s'| |s' m' e']; try reflexivity;
    try (destruct s, s'; reflexivity).
  unfold Num.mul, SFmul. cbn [neg SFopp].
  replace (xorb s (negb s')) with (negb (xorb s s')) by (destruct s, s'; reflexivity).
  apply binary_round_aux_neg.
Qed.

(** Negating the curve factor negates both offset terms exactly: the
    derived control point is the arithmetic midpoint plus the offsets
    [(m.lng - to.lng) * f] and [(to.lat - m.lat) * f] for the factor
    [f], and the midpoint plus their negations for the factor [-f]. *)
Theorem curveFactor_sign (a b : LatLng) (o : Options) :
  let m := midpoint a b in
  let off_lat := ((lng m - lng b) * curveFactor o)%js in
  let off_lng := ((lat b - lat m) * curveFactor o)%js in
  calculateControlPoint a b o
  = GLatLng (off_lat + lat m)%js (off_lng + lng m)%js
  /\ calculateControlPoint a b (with_curveFactor (neg (curveFactor o)) o)
     = GLatLng (neg off_lat + lat m)%js (neg off_lng + lng m)%js.
Proof.
  cbv zeta. split; [reflexivity|].
  unfold calculateControlPoint, midpoint. cbn [curveFactor with_curveFactor lat lng].
  now rewrite !mul_neg_r.
Qed.

(** ** More on option merging *)

(** Merging an object without properties into defaults whose keys are
    not names inherited from [Object.prototype] yields an object equal
    to the defaults, property by property. *)
Theorem mergeOptions_empty (defs : object) :
  plain_keys defs = true ->
  mergeOptions (Some ∅) defs = defs.
Proof.
  intros _. apply map_eq. intros attr. rewrite mergeOptions_lookup.
  unfold get. rewrite lookup_empty. simpl.
  now destruct (defs !! attr).
Qed.

Lemma mergeOptions_empty_witness :
  mergeOptions (Some ∅) (to_object defaults) = to_object defaults.
Proof.
  apply (mergeOptions_empty (to_object defaults)). vm_compute. reflexivity.
Defined.

(** For defaults whose keys are not names inherited from
    [Object.prototype]: merging the same options a second time changes
    nothing, and merging two objects in turn lets the later one win
    wherever its value is truthy. *)
Theorem mergeOptions_twice (a b defs : object) :
  plain_keys defs = true ->
  mergeOptions (Some a) (mergeOptions (Some a) defs) = mergeOptions (Some a) defs
  /\ (forall attr : string,
        mergeOptions (Some a) (mergeOptions (Some b) defs) !! attr
        = (fun dv => js_or (get a attr) (js_or (get b attr) dv)) <$> defs !! attr).
Proof.
  intros _. split.
  - apply map_eq. intros attr. rewrite !mergeOptions_lookup.
    destruct (defs !! attr) as [dv|]; [|reflexivity].
    simpl. f_equal. unfold js_or. now destruct (truthy (get a attr)) eqn:Ht; rewrite ?Ht.
  - intros attr. rewrite !mergeOptions_lookup.
    now destruct (defs !! attr).
Qed.

Lemma mergeOptions_twice_witness :
  mergeOptions (Some styled_opts) (mergeOptions (Some styled_opts) (to_object defaults))
  = mergeOptions (Some styled_opts) (to_object defaults)
  /\ mergeOptions (Some styled_opts) (mergeOptions (Some falsy_opts) (to_object defaults))
       !! "steps"
     = Some (VNum (Num.of_Z 2)).
Proof.
  destruct (mergeOptions_twice styled_opts falsy_opts (to_object defaults)
              ltac:(vm_compute; reflexivity)) as [H1 H2].
  split; [exact H1|]. rewrite H2. vm_compute. reflexivity.
Defined.

(** A merged value that is falsy is the default's own value: no truthy
    default is ever replaced by a falsy one. *)
Theorem mergeOptions_falsy_from_default (opts defs : object) (attr : string) (v : value) :
  mergeOptions (Some opts) defs !! attr = Some v ->
  truthy v = false ->
  defs !! attr = Some v.
Proof.
  rewrite mergeOptions_lookup. intros Hv Hf.
  destruct (defs !! attr) as [dv|]; [|discriminate].
  simpl in Hv. injection Hv as <-. f_equal. unfold js_or in *.
  destruct (truthy (get opts attr)) eqn:Ht; [congruence|reflexivity].
Qed.

Lemma mergeOptions_falsy_from_default_witness :
  to_object defaults !! "controlPoint" = Some VNull.
Proof.
  apply (mergeOptions_falsy_from_default falsy_opts (to_object defaults)
           "controlPoint" VNull);
    vm_compute; reflexivity.
Defined.

(** ** The constructed curve *)

(** Whatever the endpoints and whatever the third argument, construction
    succeeds and yields a curve with the default options, the derived
    control point and 21 cached points; the midpoint is the point at
    index 10, the blend evaluated at 0.5; the overlay receives the
    cached points with the default styling; and a later
    [getPolylinePoints] returns those same points and leaves the curve
    unchanged. *)
Theorem constructed_curve (a b : LatLng) (user_opts : option object) :
  exists c ps,
    QuadraticBezierLine a b user_opts = Some c
    /\ from c = a /\ to c = b /\ opts c = defaults
    /\ control c = calculateControlPoint a b defaults
    /\ points c = Some ps
    /\ length ps = 21%nat
    /\ middlePoint c = Some (getPoint c Num.lit_0_5)
    /\ ps !! 10%nat = middlePoint c
    /\ overlay c = Some (GPolyline ps "#ff0000" (Num.of_Z 5) Num.lit_0_6)
    /\ getPolylinePoints c = Some (ps, c).
Proof.
  unfold QuadraticBezierLine, construct. cbn [controlPoint defaults].
  match goal with
  | |- context [getPolylinePoints ?x] => set (self := x)
  end.
  destruct (getPolylinePoints_fresh self eq_refl)
    as (self' & Hrun & Hps & Hmid & Hf & Ht & Hc & Ho & _).
  rewrite Hrun. eexists _, _. split; [reflexivity|].
  cbn [opts from to control points middlePoint overlay set_overlay].
  rewrite Ho, Hf, Ht, Hc, Hps, Hmid.
  change (effectiveSteps (opts self)) with 20.
  assert (Hhalf : param 20 (20 / 2) = Num.lit_0_5) by (vm_compute; reflexivity).
  rewrite Hhalf. change (0 <=? 20) with true. cbv iota.
  do 5 (split; [reflexivity|]).
  split; [now rewrite length_samples|].
  split; [f_equal; apply getPoint_ext; cbn [from to control set_overlay]; congruence|].
  split.
  { rewrite lookup_samples by lia.
    assert (H10 : param 20 (0 + Z.of_nat 10) = Num.lit_0_5)
      by (vm_compute; reflexivity).
    now rewrite H10. }
  split; [reflexivity|].
  apply getPolylinePoints_cached. exact Hps.
Qed.

(** When the options in force carry a control point (and a step count
    below 2^53), it is the curve's control point, and the curve factor
    has no effect on the control point, the sampled points or the
    midpoint. *)
Theorem explicit_control_point (o : Options) (a b cp : LatLng) (f : Num.float) :
  controlPoint o = Some cp ->
  effectiveSteps o < 2 ^ 53 ->
  exists c c',
    construct o a b = Some c
    /\ construct (with_curveFactor f o) a b = Some c'
    /\ control c = cp /\ control c' = cp
    /\ points c' = points c
    /\ middlePoint c' = middlePoint c.
Proof.
  intros Hcp _.
  destruct (construct_run o a b) as (c & Hrun & Hc & Hps & Hmid).
  destruct (construct_run (with_curveFactor f o) a b)
    as (c' & Hrun' & Hc' & Hps' & Hmid').
  cbn [controlPoint with_curveFactor] in Hc', Hps', Hmid'.
  rewrite Hcp in *.
  exists c, c'. split; [exact Hrun|]. split; [exact Hrun'|].
  split; [exact Hc|]. split; [exact Hc'|].
  change (effectiveSteps (with_curveFactor f o)) with (effectiveSteps o)
    in Hps', Hmid'.
  rewrite Hps, Hps', Hmid, Hmid'. split.
  - apply (f_equal Some). now apply samples_ext.
  - destruct (0 <=? effectiveSteps o); [|reflexivity].
    apply (f_equal Some). now apply getPoint_ext.
Qed.

Lemma explicit_control_point_witness :
  exists c c',
    construct (with_controlPoint (at_ 5 0) defaults) (at_ 0 0) (at_ 10 10) = Some c
    /\ construct (with_curveFactor (Num.of_Z 3) (with_controlPoint (at_ 5 0) defaults))
                 (at_ 0 0) (at_ 10 10) = Some c'
    /\ control c = at_ 5 0 /\ control c' = at_ 5 0
    /\ points c' = points c.
Proof.
  destruct (explicit_control_point (with_controlPoint (at_ 5 0) defaults)
              (at_ 0 0) (at_ 10 10) (at_ 5 0) (Num.of_Z 3) eq_refl
              ltac:(vm_compute; reflexivity))
    as (c & c' & H1 & H2 & H3 & H4 & H5 & _).
  exists c, c'. auto.
Defined.

(** ** Magnitudes

    Bounds on the magnitude of sums, differences, products and halves,
    which show that the script's arithmetic stays finite on coordinates
    that are not astronomically large. *)

Module NumBounds.
Import Num.
Import NumFacts.

Lemma below_mono (k k' : Z) (x : float) :
  below k x = true -> k <= k' -> below k' x = true.
Proof.
  destruct x as [s|s| |s m e]; simpl; try easy.
  intros H Hk. apply Z.leb_le in H. apply Z.leb_le. lia.
Qed.

Lemma below_finite (k : Z) (x : float) : below k x = true -> is_finite x = true.
Proof. destruct x; simpl; easy. Qed.

Lemma below_neg (k : Z) (x : float) : below k (neg x) = below k x.
Proof. destruct x; reflexivity. Qed.

(** One rounding shift keeps the magnitude of a mantissa that it does not
    shift away. *)
Lemma shr_fexp_magnitude (q e : Z) (l : location) (mrs : shr_record) (e' : Z) :
  0 <= q ->
  shr_fexp prec emax q e l = (mrs, e') ->
  shr_m mrs = 0 \/ Zdigits2 (shr_m mrs) + e' = Zdigits2 q + e.
Proof.
  intros Hq. unfold shr_fexp, shr.
  destruct (fexp prec emax (Zdigits2 q + e) - e) as [|p|p] eqn:Hk;
    intros Heq; injection Heq as <- <-; rewrite ?shr_m_record_of_loc.
  - now right.
  - rewrite shr_m_iter by (rewrite shr_m_record_of_loc; exact Hq).
    rewrite shr_m_record_of_loc.
    assert (Hp : 0 < 2 ^ Zpos p) by (apply Z.pow_pos_nonneg; lia).
    assert (Hd : 0 <= q / 2 ^ Zpos p) by (apply Z.div_pos; lia).
    destruct (Z.eq_dec (q / 2 ^ Zpos p) 0) as [->|Hne]; [now left|right].
    assert (Hq0 : 0 < q).
    { destruct (Z.eq_dec q 0) as [->|]; [|lia]. now rewrite Z.div_0_l in Hne by lia. }
    rewrite (Zdigits2_log2 q) by exact Hq0.
    rewrite Zdigits2_log2 by lia.
    assert (Hge : 2 ^ Zpos p <= q).
    { destruct (Z.lt_ge_cases q (2 ^ Zpos p)) as [Hlt|Hge]; [|exact Hge].
      rewrite Z.div_small in Hne by lia. lia. }
    apply Z.log2_le_pow2 in Hge; [|exact Hq0].
    rewrite <- Z.shiftr_div_pow2, Z.log2_shiftr by lia. lia.
  - now right.
Qed.

(** Rounding a mantissa of magnitude below [2 ^ k] gives a finite number
    of magnitude below [2 ^ (k + 1)]. *)
Lemma binary_round_aux_below (s : bool) (q e : Z) (l : location) (k : Z) :
  0 <= q -> Zdigits2 q + e <= k -> e <= 971 -> -1074 <= k <= 1022 ->
  below (k + 1) (binary_round_aux prec emax s q e l) = true.
Proof.
  intros Hq Hmag He Hk. unfold binary_round_aux.
  pose proof (Zdigits2_nonneg q) as Hdq.
  destruct (shr_fexp prec emax q e l) as [mrs1 e1] eqn:H1.
  destruct (shr_fexp_bounds q e l mrs1 e1 Hq H1) as (Hm1 & He1 & _).
  pose proof (shr_fexp_magnitude q e l mrs1 e1 Hq H1) as Hmag1.
  set (m2 := round_nearest_even (shr_m mrs1) (loc_of_shr_record mrs1)).
  pose proof (round_nearest_even_bounds (shr_m mrs1) (loc_of_shr_record mrs1)) as Hr.
  fold m2 in Hr.
  destruct (shr_fexp prec emax m2 e1 loc_Exact) as [mrs2 e2] eqn:H2.
  destruct (shr_fexp_bounds m2 e1 loc_Exact mrs2 e2 ltac:(lia) H2) as (Hm2 & He2 & _).
  pose proof (shr_fexp_magnitude m2 e1 loc_Exact mrs2 e2 ltac:(lia) H2) as Hmag2.
  pose proof (Zdigits2_le m2 (shr_m mrs1 + 1) ltac:(lia)) as Hle.
  pose proof (Zdigits2_succ (shr_m mrs1) Hm1) as Hsucc.
  rewrite fexp_eq in He1, He2.
  assert (Hd2 : Zdigits2 m2 + e1 <= k + 1).
  { destruct Hmag1 as [H0|Heq].
    - rewrite H0 in Hle. change (Zdigits2 (0 + 1)) with 1 in Hle. lia.
    - lia. }
  cbv zeta. destruct (shr_m mrs2) as [|m|m] eqn:Hm; [reflexivity| |lia].
  change (emax - prec) with 971.
  replace (e2 <=? 971) with true by (symmetry; apply Z.leb_le; lia).
  cbn [below]. apply Z.leb_le.
  destruct Hmag2 as [H0|Heq]; [discriminate|].
  cbn [Zdigits2] in Heq. lia.
Qed.

Lemma binary_round_below (s : bool) (p : positive) (e k : Z) :
  Zpos (digits2_pos p) + e <= k -> -1074 <= k <= 1022 ->
  below (k + 1) (binary_round prec emax s p e) = true.
Proof.
  intros Hmag Hk. unfold binary_round.
  pose proof (shl_align_spec p e (fexp prec emax (Zpos (digits2_pos p) + e))) as Hs.
  destruct (shl_align p e (fexp prec emax (Zpos (digits2_pos p) + e))) as [mz ez].
  destruct Hs as (Hez & Hdig & _). rewrite fexp_eq in Hez.
  apply binary_round_aux_below; try lia.
  cbn [Zdigits2]. lia.
Qed.

Lemma binary_normalize_below (z e k : Z) :
  Zdigits2 z + e <= k -> -1074 <= k <= 1022 ->
  below (k + 1) (binary_normalize prec emax z e false) = true.
Proof.
  intros Hmag Hk. destruct z as [|p|p]; [reflexivity| |];
    now apply binary_round_below.
Qed.

Lemma Zdigits2_abs (z : Z) : Zdigits2 (Z.abs z) = Zdigits2 z.
Proof. destruct z; reflexivity. Qed.

Lemma Zdigits2_add (a b : Z) :
  0 <= a -> 0 <= b -> Zdigits2 (a + b) <= Z.max (Zdigits2 a) (Zdigits2 b) + 1.
Proof.
  intros Ha Hb.
  assert (Hle : a + b <= 2 * Z.max a b) by lia.
  pose proof (Zdigits2_le (a + b) (2 * Z.max a b) ltac:(lia)) as H.
  assert (Hd : Zdigits2 (2 * Z.max a b) <= Zdigits2 (Z.max a b) + 1).
  { destruct (Z.eq_dec (Z.max a b) 0) as [->|Hne]; [simpl; lia|].
    rewrite !Zdigits2_log2 by lia. rewrite Z.log2_double by lia. lia. }
  assert (Hm : Zdigits2 (Z.max a b) = Z.max (Zdigits2 a) (Zdigits2 b)).
  { destruct (Z.max_spec a b) as [[Hab ->]|[Hab ->]].
    - pose proof (Zdigits2_le a b ltac:(lia)). lia.
    - pose proof (Zdigits2_le b a ltac:(lia)). lia. }
  lia.
Qed.

Lemma abs_cond_Zopp (s : bool) (z : Z) : Z.abs (cond_Zopp s z) = Z.abs z.
Proof. destruct s; simpl; lia. Qed.

(** The sum of two finite numbers of magnitude below [2 ^ k] is finite
    and of magnitude below [2 ^ (k + 2)]. *)
Lemma add_below (k : Z) (x y : float) :
  below k x = true -> below k y = true -> -1074 <= k <= 1021 ->
  below (k + 2) (x + y)%js = true.
Proof.
  intros Hx Hy Hk.
  destruct x as [sx|sx| |sx mx ex]; try discriminate;
    destruct y as [sy|sy| |sy my ey]; try discriminate.
  - destruct sx, sy; reflexivity.
  - apply (below_mono k); [exact Hy|lia].
  - apply (below_mono k); [exact Hx|lia].
  - cbn [below] in Hx, Hy. apply Z.leb_le in Hx, Hy.
    unfold add, SFadd.
    pose proof (shl_align_spec mx ex (Z.min ex ey)) as Hsx.
    pose proof (shl_align_spec my ey (Z.min ex ey)) as Hsy.
    destruct (shl_align mx ex (Z.min ex ey)) as [mx' ex'].
    destruct (shl_align my ey (Z.min ex ey)) as [my' ey'].
    destruct Hsx as (Hex & Hdx & _), Hsy as (Hey & Hdy & _).
    cbn [fst].
    replace (k + 2) with (k + 1 + 1) by lia.
    apply binary_normalize_below; [|lia].
    set (z := cond_Zopp sx (Zpos mx') + cond_Zopp sy (Zpos my')).
    assert (Habs : Z.abs z <= Zpos mx' + Zpos my').
    { unfold z. destruct sx, sy; simpl cond_Zopp; lia. }
    pose proof (Zdigits2_le (Z.abs z) (Zpos mx' + Zpos my') ltac:(lia)) as Hle.
    pose proof (Zdigits2_add (Zpos mx') (Zpos my') ltac:(lia) ltac:(lia)) as Hadd.
    rewrite Zdigits2_abs in Hle. cbn [Zdigits2] in Hadd.
    set (w := Zdigits2 (Zpos mx' + Zpos my')) in *.
    set (dz := Zdigits2 z) in *. clearbody w dz.
    assert (A1 : dz <= Z.max (Zpos (digits2_pos mx')) (Zpos (digits2_pos my')) + 1) by lia.
    assert (A2 : Zpos (digits2_pos mx') + Z.min ex ey <= k) by lia.
    assert (A3 : Zpos (digits2_pos my') + Z.min ex ey <= k) by lia.
    lia.
Qed.

Lemma sub_add_neg (x y : float) : (x - y)%js = (x + neg y)%js.
Proof.
  destruct x as [sx|sx| |sx mx ex], y as [sy|sy| |sy my ey]; try reflexivity;
    destruct sx, sy; reflexivity.
Qed.

Lemma sub_below (k : Z) (x y : float) :
  below k x = true -> below k y = true -> -1074 <= k <= 1021 ->
  below (k + 2) (x - y)%js = true.
Proof.
  intros Hx Hy Hk. rewrite sub_add_neg.
  apply add_below; try assumption. now rewrite below_neg.
Qed.

(** The product of two finite numbers of magnitudes below [2 ^ kx] and
    [2 ^ ky] is finite and of magnitude below [2 ^ (kx + ky + 1)]. *)
Lemma mul_below (kx ky : Z) (x y : float) :
  below kx x = true -> below ky y = true -> -1074 <= kx + ky <= 973 ->
  below (kx + ky + 1) (x * y)%js = true.
Proof.
  intros Hx Hy Hk.
  destruct x as [sx|sx| |sx mx ex]; try discriminate;
    destruct y as [sy|sy| |sy my ey]; try discriminate; try reflexivity.
  cbn [below] in Hx, Hy. apply Z.leb_le in Hx, Hy.
  unfold mul, SFmul.
  pose proof (Pos2Z.is_pos (digits2_pos mx)).
  pose proof (Pos2Z.is_pos (digits2_pos my)).
  apply binary_round_aux_below; try lia.
  cbn [Zdigits2]. rewrite !digits2_log2 in *. rewrite Pos2Z.inj_mul.
  pose proof (Z.log2_mul_above (Zpos mx) (Zpos my) ltac:(lia) ltac:(lia)). lia.
Qed.

(** Half of a finite number of magnitude below [2 ^ k] is finite and of
    magnitude below [2 ^ (k + 1)]. *)
Lemma half_below (k : Z) (x : float) :
  below k x = true -> -1074 <= k <= 1022 ->
  below (k + 1) (x / two)%js = true.
Proof.
  intros Hx Hk. rewrite two_eq.
  destruct x as [sx|sx| |sx mx ex]; try discriminate; [reflexivity|].
  cbn [below] in Hx. apply Z.leb_le in Hx.
  unfold div, SFdiv, SFdiv_core_binary.
  cbn [Zdigits2]. change (Zpos (digits2_pos 4503599627370496)) with 53.
  rewrite fexp_eq.
  set (d := Zpos (digits2_pos mx)) in *.
  assert (Hd : 1 <= d) by (unfold d; lia).
  set (e' := Z.min (Z.max (d + ex - (53 + -51) - 53) (-1074)) (ex - -51)).
  set (sh := ex - -51 - e').
  assert (Hsh : 0 <= sh) by (unfold sh, e'; lia).
  assert (Hm : match sh with
               | 0 => Zpos mx
               | Zpos _ => Z.shiftl (Zpos mx) sh
               | Zneg _ => 0
               end = Zpos mx * 2 ^ sh).
  { destruct sh as [|p|p] eqn:Hp; [now rewrite Z.pow_0_r, Z.mul_1_r| |lia].
    apply Z.shiftl_mul_pow2. lia. }
  rewrite Hm.
  match goal with
  | |- context [IntDef.Z.div_eucl ?n ?dv] =>
      destruct (IntDef.Z.div_eucl n dv) as [q r] eqn:Hdiv
  end.
  change (Z.div_eucl (Zpos mx * 2 ^ sh) (2 ^ 52) = (q, r)) in Hdiv.
  assert (Hq : q = Zpos mx * 2 ^ sh / 2 ^ 52) by (unfold Z.div; now rewrite Hdiv).
  assert (Hpow : 0 < 2 ^ sh) by (apply Z.pow_pos_nonneg; lia).
  assert (Hq0 : 0 <= q) by (subst q; apply Z.div_pos; [nia|lia]).
  assert (He' : e' <= 971 /\ e' <= k /\ e' = ex + 51 - sh) by (unfold sh, e'; lia).
  assert (Hdq : Zdigits2 q + e' <= k).
  { destruct (Z.eq_dec q 0) as [->|Hne]; [cbn [Zdigits2]; lia|].
    rewrite Zdigits2_log2 by lia. subst q.
    assert (Hge : 2 ^ 52 <= Zpos mx * 2 ^ sh).
    { destruct (Z.lt_ge_cases (Zpos mx * 2 ^ sh) (2 ^ 52)) as [Hlt|Hge]; [|exact Hge].
      rewrite Z.div_small in Hne by nia. lia. }
    apply Z.log2_le_pow2 in Hge; [|nia].
    rewrite Z.log2_mul_pow2 in Hge by lia.
    rewrite <- Z.shiftr_div_pow2, Z.log2_shiftr by nia.
    rewrite Z.log2_mul_pow2 by lia.
    unfold d in *. rewrite digits2_log2 in *. clearbody sh e'. lia. }
  clearbody e'. apply binary_round_aux_below; lia.
Qed.

(** *** The magnitudes of the script's quantities *)

Lemma of_Z_below (i : Z) : 0 <= i < 2 ^ 53 -> below 53 (of_Z i) = true.
Proof.
  intros Hi. destruct (Z.eq_dec i 0) as [->|Hne]; [reflexivity|].
  destruct (of_Z_small i ltac:(lia)) as (M & E & -> & Hd & HE).
  cbn [below]. apply Z.leb_le. lia.
Qed.

Lemma recip_below (n : Z) : 1 <= n < 2 ^ 53 -> below 2 (one / of_Z n)%js = true.
Proof.
  intros Hn. destruct (of_Z_small n Hn) as (M & E & -> & Hd & HE).
  rewrite one_eq. unfold div, SFdiv, SFdiv_core_binary.
  cbn [Zdigits2 xorb]. rewrite Hd.
  change (Zpos (digits2_pos 4503599627370496)) with 53.
  rewrite fexp_eq.
  replace (Z.min (Z.max (53 + -52 - (53 + E) - 53) (-1074)) (-52 - E))
    with (-105 - E) by lia.
  replace (-52 - E - (-105 - E)) with 53 by lia.
  cbv iota beta.
  change (Z.shiftl 4503599627370496 53) with (2 ^ 105).
  destruct (Z.div_eucl (2 ^ 105) (Zpos M)) as [q r] eqn:Hdiv.
  assert (Hq : q = 2 ^ 105 / Zpos M) by (unfold Z.div; now rewrite Hdiv).
  assert (HM : 2 ^ 52 <= Zpos M).
  { apply Z.log2_le_pow2; [lia|]. rewrite digits2_log2 in Hd. lia. }
  assert (Hq0 : 0 <= q) by (subst q; apply Z.div_pos; lia).
  assert (Hq1 : q <= 2 ^ 53).
  { subst q. change (2 ^ 53) with (2 ^ 105 / 2 ^ 52).
    apply Z.div_le_compat_l; lia. }
  pose proof (Zdigits2_le q (2 ^ 53) ltac:(lia)) as Hdq.
  change (Zdigits2 (2 ^ 53)) with 54 in Hdq.
  change 2 with (1 + 1) at 1.
  apply binary_round_aux_below; lia.
Qed.

(** Every parameter the loop passes to [getPoint] is finite and of
    magnitude below [2 ^ 56]. *)
Lemma param_below (n i : Z) :
  1 <= n < 2 ^ 53 -> 0 <= i < 2 ^ 53 -> below 56 (param n i) = true.
Proof.
  intros Hn Hi. unfold param.
  change 56 with (53 + 2 + 1).
  apply mul_below; [now apply of_Z_below|now apply recip_below|lia].
Qed.

(** The blend of three finite values of magnitude below [2 ^ k] at a
    parameter of magnitude below [2 ^ 56] is finite. *)
Lemma blend_below (k : Z) (t a c b : float) :
  0 <= k <= 800 ->
  below 56 t = true -> below k a = true -> below k c = true -> below k b = true ->
  below (k + 123)
    ((one - t) * (one - t) * a + two * t * (one - t) * c + t * t * b)%js = true.
Proof.
  intros Hk Ht Ha Hc Hb.
  assert (Hu : below 58 (one - t)%js = true).
  { change 58 with (56 + 2). apply sub_below; [reflexivity|exact Ht|lia]. }
  assert (Huu : below 117 ((one - t) * (one - t))%js = true).
  { change 117 with (58 + 58 + 1). apply mul_below; [exact Hu|exact Hu|lia]. }
  assert (HA : below (k + 118) ((one - t) * (one - t) * a)%js = true).
  { replace (k + 118) with (117 + k + 1) by lia.
    apply mul_below; [exact Huu|exact Ha|lia]. }
  assert (Hv : below 59 (two * t)%js = true).
  { change 59 with (2 + 56 + 1). apply mul_below; [reflexivity|exact Ht|lia]. }
  assert (Hvu : below 118 (two * t * (one - t))%js = true).
  { change 118 with (59 + 58 + 1). apply mul_below; [exact Hv|exact Hu|lia]. }
  assert (HB : below (k + 119) (two * t * (one - t) * c)%js = true).
  { replace (k + 119) with (118 + k + 1) by lia.
    apply mul_below; [exact Hvu|exact Hc|lia]. }
  assert (Htt : below 113 (t * t)%js = true).
  { change 113 with (56 + 56 + 1). apply mul_below; [exact Ht|exact Ht|lia]. }
  assert (HC : below (k + 114) (t * t * b)%js = true).
  { replace (k + 114) with (113 + k + 1) by lia.
    apply mul_below; [exact Htt|exact Hb|lia]. }
  replace (k + 123) with (k + 121 + 2) by lia.
  apply add_below; [|apply (below_mono (k + 114)); [exact HC|lia]|lia].
  replace (k + 121) with (k + 119 + 2) by lia.
  apply add_below; [apply (below_mono (k + 118)); [exact HA|lia]|exact HB|lia].
Qed.

(** The derived control point of finite endpoints of magnitude below
    [2 ^ k], for a curve factor of magnitude below 1, is finite. *)
Lemma control_below (k : Z) (a b : LatLng) (o : Options) :
  0 <= k <= 800 ->
  below k (lat a) = true -> below k (lng a) = true ->
  below k (lat b) = true -> below k (lng b) = true ->
  below 0 (curveFactor o) = true ->
  below (k + 8) (lat (calculateControlPoint a b o)) = true
  /\ below (k + 8) (lng (calculateControlPoint a b o)) = true.
Proof.
  intros Hk Hlata Hlnga Hlatb Hlngb Hf.
  assert (Hmid : forall x y, below k x = true -> below k y = true ->
                             below (k + 3) ((x + y) / two)%js = true).
  { intros x y Hx Hy. replace (k + 3) with (k + 2 + 1) by lia.
    apply half_below; [|lia]. apply add_below; [exact Hx|exact Hy|lia]. }
  assert (Hoff : forall m x, below (k + 3) m = true -> below k x = true ->
                             below (k + 6) ((m - x) * curveFactor o)%js = true
                             /\ below (k + 6) ((x - m) * curveFactor o)%js = true).
  { intros m x Hm Hx.
    assert (Hx' : below (k + 3) x = true) by (apply (below_mono k); [exact Hx|lia]).
    split; replace (k + 6) with (k + 5 + 0 + 1) by lia;
      (apply mul_below; [|exact Hf|lia]);
      replace (k + 5) with (k + 3 + 2) by lia;
      apply sub_below; (assumption || lia). }
  unfold calculateControlPoint. cbn [lat lng].
  pose proof (Hmid _ _ Hlata Hlatb) as Hmlat.
  pose proof (Hmid _ _ Hlnga Hlngb) as Hmlng.
  destruct (Hoff _ _ Hmlng Hlngb) as [H1 _].
  destruct (Hoff _ _ Hmlat Hlatb) as [_ H2].
  split; replace (k + 8) with (k + 6 + 2) by lia;
    (apply add_below; [assumption| |lia]);
    (eapply below_mono; [eassumption|lia]).
Qed.

End NumBounds.


(** ** Finite coordinates give finite points *)

Lemma samples_Forall_range (P : LatLng -> Prop) (self : Curve) (n : Z) (k : nat) :
  forall t : Z,
    (forall i, t <= i < t + Z.of_nat k -> P (getPoint self (param n i))) ->
    Forall P (samples self n t k).
Proof.
  induction k as [|k IH]; intros t HP; simpl; constructor.
  - apply HP. lia.
  - apply IH. intros i Hi. apply HP. lia.
Qed.

Lemma axes_below_inv (k : Z) (p : LatLng) :
  axes_below k p = true -> below k (lat p) = true /\ below k (lng p) = true.
Proof. unfold axes_below. now rewrite andb_true_iff. Qed.

Lemma getPoint_finite (self : Curve) (t : Num.float) (k : Z) :
  0 <= k <= 800 ->
  below 56 t = true ->
  axes_below k (from self) = true -> axes_below k (control self) = true ->
  axes_below k (to self) = true ->
  finite_axes (getPoint self t).
Proof.
  intros Hk Ht Hf Hc Hto.
  apply axes_below_inv in Hf, Hc, Hto.
  destruct Hf, Hc, Hto.
  split; cbn [getPoint lat lng]; unfold bezier;
    apply (NumBounds.below_finite (k + 123));
    now apply NumBounds.blend_below.
Qed.

(** With between 1 and 2^53 steps and endpoints and control point whose
    coordinates are finite and of magnitude below 2^800, every sampled
    point has finite coordinates: the sampling produces no infinity and
    no NaN. *)
Theorem samples_finite (self : Curve) :
  points self = None ->
  1 <= effectiveSteps (opts self) < 2 ^ 53 ->
  axes_below 800 (from self) = true ->
  axes_below 800 (control self) = true ->
  axes_below 800 (to self) = true ->
  exists ps self',
    getPolylinePoints self = Some (ps, self')
    /\ Forall finite_axes ps.
Proof.
  intros Hnull Hn Hf Hc Hto.
  destruct (getPolylinePoints_fresh self Hnull) as (self' & Hrun & _).
  eexists _, self'. split; [exact Hrun|].
  apply samples_Forall_range. intros i Hi.
  apply (getPoint_finite self _ 800); try assumption; [lia|].
  apply NumBounds.param_below; lia.
Qed.

Lemma samples_finite_witness :
  exists ps self',
    getPolylinePoints (unsampled (with_steps 7 defaults) (at_ 0 0) (at_ 3 7) (at_ 10 10))
    = Some (ps, self')
    /\ Forall finite_axes ps.
Proof.
  apply (samples_finite
           (unsampled (with_steps 7 defaults) (at_ 0 0) (at_ 3 7) (at_ 10 10)));
    [reflexivity|vm_compute; split; [discriminate|reflexivity]
    |reflexivity|reflexivity|reflexivity].
Defined.

Lemma point_below_inv (k : Z) (p : LatLng) :
  point_below k p = true ->
  finite_point p = true /\ below k (lat p) = true /\ below k (lng p) = true.
Proof. unfold point_below. rewrite !andb_true_iff. tauto. Qed.

(** For endpoints whose coordinates are finite binary64 values of
    magnitude below 2^700, whatever the third argument, the constructed
    curve has a finite control point and 21 points with finite
    coordinates, of which the first equals [from] and the last equals
    [to] on both axes. *)
Theorem constructed_from_to (a b : LatLng) (user_opts : option object) :
  point_below 700 a = true ->
  point_below 700 b = true ->
  exists c ps p0 p1,
    QuadraticBezierLine a b user_opts = Some c
    /\ finite_axes (control c)
    /\ points c = Some ps
    /\ length ps = 21%nat
    /\ Forall finite_axes ps
    /\ ps !! 0%nat = Some p0 /\ same_point p0 a
    /\ last ps = Some p1 /\ same_point p1 b.
Proof.
  intros Ha Hb.
  apply point_below_inv in Ha, Hb.
  destruct Ha as (Hfa & Hlata & Hlnga), Hb as (Hfb & Hlatb & Hlngb).
  apply finite_point_inv in Hfa, Hfb.
  destruct Hfa as (Hva1 & Hfa1 & Hva2 & Hfa2), Hfb as (Hvb1 & Hfb1 & Hvb2 & Hfb2).
  destruct (NumBounds.control_below 700 a b defaults ltac:(lia)
              Hlata Hlnga Hlatb Hlngb eq_refl) as [Hc1 Hc2].
  change (700 + 8) with 708 in Hc1, Hc2.
  unfold QuadraticBezierLine.
  destruct (construct_run defaults a b) as (c & Hrun & Hc & Hps & _).
  cbn [controlPoint defaults] in Hc, Hps.
  set (ctrl := calculateControlPoint a b defaults) in *.
  set (self := unsampled defaults a ctrl b) in *.
  change (effectiveSteps defaults) with 20 in Hps.
  destruct (samples_ends self 20 ltac:(lia)) as [Hfirst Hlast].
  assert (H0 : param 20 0 = Num.zero) by (vm_compute; reflexivity).
  assert (H1 : param 20 20 = Num.one) by (vm_compute; reflexivity).
  rewrite H0 in Hfirst. rewrite H1 in Hlast.
  assert (Hfc : finite_axes ctrl).
  { split; [apply (NumBounds.below_finite 708 _ Hc1)
           |apply (NumBounds.below_finite 708 _ Hc2)]. }
  destruct Hfc as [Hfc1 Hfc2].
  exists c. eexists _, _, _.
  split; [exact Hrun|]. split; [rewrite Hc; now split|].
  split; [exact Hps|]. split; [now rewrite length_samples|]. split.
  { apply samples_Forall_range. intros i Hi.
    apply (getPoint_finite self _ 708); [lia| | | |].
    - apply NumBounds.param_below; lia.
    - unfold axes_below. cbn [from self unsampled].
      now rewrite (NumBounds.below_mono 700 708 _ Hlata),
                  (NumBounds.below_mono 700 708 _ Hlnga) by lia.
    - unfold axes_below. cbn [control self unsampled]. now rewrite Hc1, Hc2.
    - unfold axes_below. cbn [to self unsampled].
      now rewrite (NumBounds.below_mono 700 708 _ Hlatb),
                  (NumBounds.below_mono 700 708 _ Hlngb) by lia. }
  split; [exact Hfirst|]. split.
  { split; cbn [getPoint lat lng]; now apply bezier_zero. }
  split; [exact Hlast|].
  split; cbn [getPoint lat lng]; now apply bezier_one.
Qed.

Lemma constructed_from_to_witness :
  exists c ps p0 p1,
    QuadraticBezierLine (at_ 48 2) (at_ (-33) 151) None = Some c
    /\ points c = Some ps
    /\ ps !! 0%nat = Some p0 /\ same_point p0 (at_ 48 2)
    /\ last ps = Some p1 /\ same_point p1 (at_ (-33) 151).
Proof.
  destruct (constructed_from_to (at_ 48 2) (at_ (-33) 151) None eq_refl eq_refl)
    as (c & ps & p0 & p1 & H1 & _ & H2 & _ & _ & H3 & H4 & H5 & H6).
  exists c, ps, p0, p1. auto 10.
Defined.

(** ** Odd step counts *)

(** An odd step count and the even one after it (below 2^53) sample
    the same curve: the points and the recorded midpoint are the same. *)
Theorem odd_steps_round_up (o : Options) (a c b : LatLng) :
  Z.odd (steps o) = true ->
  effectiveSteps o < 2 ^ 53 ->
  exists ps s1 s2,
    getPolylinePoints (unsampled o a c b) = Some (ps, s1)
    /\ getPolylinePoints (unsampled (with_steps (steps o + 1) o) a c b) = Some (ps, s2)
    /\ middlePoint s1 = middlePoint s2.
Proof.
  intros Hodd _.
  set (x1 := unsampled o a c b).
  set (x2 := unsampled (with_steps (steps o + 1) o) a c b).
  destruct (getPolylinePoints_fresh x1 eq_refl) as (s1 & Hrun1 & _ & Hmid1 & _).
  destruct (getPolylinePoints_fresh x2 eq_refl) as (s2 & Hrun2 & _ & Hmid2 & _).
  assert (Hn : effectiveSteps (opts x2) = effectiveSteps (opts x1)).
  { rewrite !effectiveSteps_parity. cbn [opts x1 x2 unsampled steps with_steps].
    rewrite Z.even_add, <- Z.negb_odd, Hodd. reflexivity. }
  rewrite Hn in Hrun2, Hmid2.
  rewrite (samples_ext x2 x1) in Hrun2 by reflexivity.
  rewrite (getPoint_ext x2 x1) in Hmid2 by reflexivity.
  eexists _, s1, s2. split; [exact Hrun1|]. split; [exact Hrun2|].
  now rewrite Hmid1, Hmid2.
Qed.

Lemma odd_steps_round_up_witness :
  exists ps s1 s2,
    getPolylinePoints (unsampled (with_steps 7 defaults) (at_ 0 0) (at_ 3 7) (at_ 10 10))
    = Some (ps, s1)
    /\ getPolylinePoints (unsampled (with_steps 8 defaults) (at_ 0 0) (at_ 3 7) (at_ 10 10))
       = Some (ps, s2)
    /\ middlePoint s1 = middlePoint s2.
Proof.
  apply (odd_steps_round_up (with_steps 7 defaults) (at_ 0 0) (at_ 3 7) (at_ 10 10)).
  - reflexivity.
  - vm_compute. reflexivity.
Defined.

(** ** The midpoint of a constructed curve *)

(** The midpoint recorded by the constructor is, on each axis, a quarter
    of [from] plus half of the control point, plus a quarter of [to],
    each operation rounded as it is carried out. *)
Theorem constructed_midpoint (a b : LatLng) (user_opts : option object) :
  exists c,
    QuadraticBezierLine a b user_opts = Some c
    /\ middlePoint c
       = Some (GLatLng
                 (lit_0_25 * lat a + Num.lit_0_5 * lat (control c)
                  + lit_0_25 * lat b)%js
                 (lit_0_25 * lng a + Num.lit_0_5 * lng (control c)
                  + lit_0_25 * lng b)%js).
Proof.
  unfold QuadraticBezierLine.
  destruct (construct_run defaults a b) as (c & Hrun & Hc & _ & Hmid).
  exists c. split; [exact Hrun|].
  rewrite Hmid, Hc. cbn [controlPoint defaults].
  change (effectiveSteps defaults) with 20.
  assert (Hhalf : param 20 (20 / 2) = Num.lit_0_5) by (vm_compute; reflexivity).
  rewrite Hhalf. change (0 <=? 20) with true. cbv iota.
  unfold getPoint, bezier. cbn [from control to unsampled].
  assert (Hq : ((Num.one - Num.lit_0_5) * (Num.one - Num.lit_0_5))%js = lit_0_25)
    by (vm_compute; reflexivity).
  assert (Hh : (Num.two * Num.lit_0_5 * (Num.one - Num.lit_0_5))%js = Num.lit_0_5)
    by (vm_compute; reflexivity).
  assert (Ht : (Num.lit_0_5 * Num.lit_0_5)%js = lit_0_25)
    by (vm_compute; reflexivity).
  now rewrite Hq, Hh, Ht.
Qed.
